(** * doi_corrector: the identifier-resolution and citation-graph scripts

    A shallow embedding of the pure cores of
      - Scripts/reference_formatter_for_crossref.py  (ReferenceProcessor)
      - Scripts/citing_doi_matcher.py                (DOIMatcher)
      - Scripts/cited_articles_metadata_gatherer.py  (CrossRefProcessor)
      - Scripts/citation_finder.py                   (SPARQLCitationExtractor)
      - Scripts/new_doi_validator.py                 (DOIValidator)
    and the properties the specification states about them.

    Python [str] values are modelled as Rocq strings whose characters are
    read as the code points U+0000..U+00FF; the character classes below are
    Python's Unicode classes restricted to that range. *)

From Stdlib Require Import List String Ascii ZArith NArith Bool Lia.
From stdpp Require Import base list strings gmap.
Import ListNotations.

Local Open Scope string_scope.
Local Open Scope list_scope.
Set Warnings "-register-all".

(** ** Python strings *)

Module PyStr.

Abbreviation chars := (list ascii).

Definition code (c : ascii) : N := N_of_ascii c.

Definition in_range (lo hi : N) (c : ascii) : bool :=
  (N.leb lo (code c) && N.leb (code c) hi)%bool.

(** [str.isspace] on one character, also the class [\s] of [re] and the
    characters removed by [str.strip()]. *)
Definition is_space (c : ascii) : bool :=
  in_range 9 13 c || in_range 28 32 c || N.eqb (code c) 133 || N.eqb (code c) 160.

(** The class [\d] of [re] (decimal digits). *)
Definition is_digit (c : ascii) : bool := in_range 48 57 c.

(** [str.isalnum] on one character. *)
Definition is_alnum (c : ascii) : bool :=
  is_digit c || in_range 65 90 c || in_range 97 122 c
  || N.eqb (code c) 170 || N.eqb (code c) 181 || N.eqb (code c) 186
  || in_range 192 214 c || in_range 216 246 c || in_range 248 255 c
  || in_range 178 179 c || N.eqb (code c) 185 || in_range 188 190 c.

(** The class [\w] of [re]. *)
Definition is_word (c : ascii) : bool := is_alnum c || Ascii.eqb c "_".

(** [str.lower] on one character. *)
Definition lower_char (c : ascii) : ascii :=
  if in_range 65 90 c || (in_range 192 222 c && negb (N.eqb (code c) 215))
  then ascii_of_N (code c + 32) else c.

Definition lower (s : string) : string :=
  string_of_list_ascii (map lower_char (list_ascii_of_string s)).

Fixpoint lstrip (l : chars) : chars :=
  match l with
  | c :: l' => if is_space c then lstrip l' else l
  | [] => []
  end.

Definition rstrip (l : chars) : chars := rev (lstrip (rev l)).

(** [s.strip()] *)
Definition strip (l : chars) : chars := rstrip (lstrip l).

(** [s.find(c)] for a one-character needle: the index of the first
    occurrence, or -1. *)
Fixpoint find_char (c : ascii) (l : chars) : Z :=
  match l with
  | [] => (-1)%Z
  | x :: l' =>
      if Ascii.eqb x c then 0%Z
      else let r := find_char c l' in
           if (r <? 0)%Z then (-1)%Z else (r + 1)%Z
  end.

(** [s[i:]] for [i >= 0]. *)
Definition slice_from (i : Z) (l : chars) : chars := skipn (Z.to_nat i) l.

(** [l] starts with [p]. *)
Fixpoint starts_with (p l : chars) : bool :=
  match p, l with
  | [], _ => true
  | a :: p', b :: l' => Ascii.eqb a b && starts_with p' l'
  | _ :: _, [] => false
  end.

(** [needle in s] for strings. *)
Fixpoint occurs (p l : chars) : bool :=
  starts_with p l ||
  match l with
  | [] => false
  | _ :: l' => occurs p l'
  end.

(** [s.replace(old, "")] for a non-empty [old]: one left-to-right pass
    that drops every occurrence it meets and resumes after it. The
    argument [skip] counts the characters of the occurrence still to be
    dropped. *)
Fixpoint delete_all_aux (old : chars) (skip : nat) (l : chars) : chars :=
  match l with
  | [] => []
  | c :: l' =>
      match skip with
      | S n => delete_all_aux old n l'
      | O =>
          if starts_with old l
          then delete_all_aux old (pred (List.length old)) l'
          else c :: delete_all_aux old 0 l'
      end
  end.

Definition delete_all (old l : chars) : chars := delete_all_aux old 0 l.

(** [sep.join(parts)] *)
Fixpoint join (sep : chars) (parts : list chars) : chars :=
  match parts with
  | [] => []
  | [p] => p
  | p :: rest => p ++ sep ++ join sep rest
  end.


End PyStr.

(** ** The fragment of Python's [re] used by the reference parser

    A backtracking matcher in continuation-passing style: greedy
    quantifiers try the longest repetition first and give characters back
    when the rest of the pattern fails, as [re] does. *)

Module Re.
Import PyStr.

Inductive regex : Type :=
| Eps                                               (* empty pattern *)
| Chr (p : ascii -> bool)                           (* one character of a class *)
| Cat (r s : regex)                                 (* r s *)
| Alt (r s : regex)                                 (* r|s *)
| Opt (r : regex)                                   (* r? , greedy *)
| Rep (p : ascii -> bool) (lo : nat) (hi : option nat) (* [p]{lo,hi} , greedy *)
| Ahead (r : regex)                                 (* (?=r) *)
| Eos                                               (* $ *)
| Wordb                                             (* \b *)
| Grp (r : regex).                                  (* ( r ), capturing group 1 *)

(** A position in the subject: the characters to its left (nearest
    first) and the characters to its right. *)
Record cursor : Type := Cur { before : chars; after : chars }.

Definition newline : ascii := ascii_of_N 10.

(** [$] without MULTILINE: the end, or just before a final newline. *)
Definition at_eos (c : cursor) : bool :=
  match after c with
  | [] => true
  | [x] => Ascii.eqb x newline
  | _ => false
  end.

Definition word_at (o : option ascii) : bool :=
  match o with Some x => is_word x | None => false end.

(** [\b]: exactly one of the two neighbours is a word character. *)
Definition at_wordb (c : cursor) : bool :=
  xorb (word_at (head (before c))) (word_at (head (after c))).

Definition can_more (hi : option nat) : bool :=
  match hi with Some O => false | _ => true end.

Definition one_less (hi : option nat) : option nat :=
  match hi with Some n => Some (pred n) | None => None end.

Fixpoint rep {R : Type} (p : ascii -> bool) (lo : nat) (hi : option nat)
    (bef aft : chars) (k : cursor -> option R) {struct aft} : option R :=
  let stop := match lo with O => k (Cur bef aft) | S _ => None end in
  match aft with
  | x :: aft' =>
      if p x && can_more hi then
        match rep p (pred lo) (one_less hi) (x :: bef) aft' k with
        | Some res => Some res
        | None => stop
        end
      else stop
  | [] => stop
  end.

(** The characters between two positions of the same subject. *)
Definition span (c c' : cursor) : chars :=
  rev (firstn (List.length (before c') - List.length (before c)) (before c')).

(** [run r c g k]: match [r] at [c] with group 1 currently [g], then
    continue with [k]; [None] means every alternative failed. *)
Fixpoint run {R : Type} (r : regex) (c : cursor) (g : option chars)
    (k : cursor -> option chars -> option R) : option R :=
  match r with
  | Eps => k c g
  | Chr p =>
      match after c with
      | x :: aft => if p x then k (Cur (x :: before c) aft) g else None
      | [] => None
      end
  | Cat r1 r2 => run r1 c g (fun c1 g1 => run r2 c1 g1 k)
  | Alt r1 r2 =>
      match run r1 c g k with
      | Some res => Some res
      | None => run r2 c g k
      end
  | Opt r1 =>
      match run r1 c g k with
      | Some res => Some res
      | None => k c g
      end
  | Rep p lo hi => rep p lo hi (before c) (after c) (fun c1 => k c1 g)
  | Ahead r1 =>
      match run r1 c g (fun _ g1 => Some g1) with
      | Some g1 => k c g1
      | None => None
      end
  | Eos => if at_eos c then k c g else None
  | Wordb => if at_wordb c then k c g else None
  | Grp r1 => run r1 c g (fun c1 _ => k c1 (Some (span c c1)))
  end.

(** A match object: [group(0)] and [group(1)]. *)
Record match_obj : Type := Match { group0 : chars; group1 : option chars }.

Definition match_at (r : regex) (c : cursor) : option match_obj :=
  run r c None (fun c1 g => Some (Match (span c c1) g)).

(** [re.search]: the first start position, from the left, at which the
    pattern matches. *)
Fixpoint search_from (r : regex) (bef aft : chars) {struct aft} : option match_obj :=
  match match_at r (Cur bef aft) with
  | Some m => Some m
  | None =>
      match aft with
      | [] => None
      | x :: aft' => search_from r (x :: bef) aft'
      end
  end.

Definition search (r : regex) (s : chars) : option match_obj := search_from r [] s.

Definition lit_char (a : ascii) : regex := Chr (Ascii.eqb a).

Fixpoint lit_chars (l : chars) : regex :=
  match l with
  | [] => Eps
  | a :: l' => Cat (lit_char a) (lit_chars l')
  end.

Definition lit (s : string) : regex := lit_chars (list_ascii_of_string s).

(** *** What a pattern accepts

    [matches r c c']: [r] can consume the characters between the
    positions [c] and [c'] of one subject. This is the reading of the
    pattern, with no order among the alternatives; the matcher is
    related to it by [run_sound] and [run_complete]. *)

Definition within (hi : option nat) (n : nat) : Prop :=
  match hi with Some h => n <= h | None => True end.

Inductive matches : regex -> cursor -> cursor -> Prop :=
| M_Eps c : matches Eps c c
| M_Chr p x bef aft :
    p x = true -> matches (Chr p) (Cur bef (x :: aft)) (Cur (x :: bef) aft)
| M_Cat r s c1 c2 c3 :
    matches r c1 c2 -> matches s c2 c3 -> matches (Cat r s) c1 c3
| M_AltL r s c c' : matches r c c' -> matches (Alt r s) c c'
| M_AltR r s c c' : matches s c c' -> matches (Alt r s) c c'
| M_OptSome r c c' : matches r c c' -> matches (Opt r) c c'
| M_OptNone r c : matches (Opt r) c c
| M_Rep p lo hi bef xs aft :
    lo <= List.length xs -> within hi (List.length xs) -> forallb p xs = true ->
    matches (Rep p lo hi) (Cur bef (xs ++ aft)) (Cur (rev xs ++ bef) aft)
| M_Ahead r c c' : matches r c c' -> matches (Ahead r) c c
| M_Eos c : at_eos c = true -> matches Eos c c
| M_Wordb c : at_wordb c = true -> matches Wordb c c
| M_Grp r c c' : matches r c c' -> matches (Grp r) c c'.

(** The same reading, with the content of group 1 before and after. *)
Inductive matches_grp : regex -> cursor -> option chars -> cursor -> option chars -> Prop :=
| G_Eps c g : matches_grp Eps c g c g
| G_Chr p x bef aft g :
    p x = true -> matches_grp (Chr p) (Cur bef (x :: aft)) g (Cur (x :: bef) aft) g
| G_Cat r s c1 g1 c2 g2 c3 g3 :
    matches_grp r c1 g1 c2 g2 -> matches_grp s c2 g2 c3 g3 ->
    matches_grp (Cat r s) c1 g1 c3 g3
| G_AltL r s c g c' g' : matches_grp r c g c' g' -> matches_grp (Alt r s) c g c' g'
| G_AltR r s c g c' g' : matches_grp s c g c' g' -> matches_grp (Alt r s) c g c' g'
| G_OptSome r c g c' g' : matches_grp r c g c' g' -> matches_grp (Opt r) c g c' g'
| G_OptNone r c g : matches_grp (Opt r) c g c g
| G_Rep p lo hi bef xs aft g :
    lo <= List.length xs -> within hi (List.length xs) -> forallb p xs = true ->
    matches_grp (Rep p lo hi) (Cur bef (xs ++ aft)) g (Cur (rev xs ++ bef) aft) g
| G_Ahead r c g c' g' : matches_grp r c g c' g' -> matches_grp (Ahead r) c g c g'
| G_Eos c g : at_eos c = true -> matches_grp Eos c g c g
| G_Wordb c g : at_wordb c = true -> matches_grp Wordb c g c g
| G_Grp r c g c' g' :
    matches_grp r c g c' g' -> matches_grp (Grp r) c g c' (Some (span c c')).

End Re.

(** ** reference_formatter_for_crossref.py *)

Module ReferenceProcessor.
Import PyStr Re.

(** [[:\s]] *)
Definition colon_or_space (c : ascii) : bool := Ascii.eqb c ":" || is_space c.

(** [[^\s:,\);]] *)
Definition doi_tail (c : ascii) : bool :=
  negb (is_space c || Ascii.eqb c ":" || Ascii.eqb c "," || Ascii.eqb c ")"
        || Ascii.eqb c ";").

(** [r'\bPMID[:\s]?(\d+)\b'] *)
Definition pmid_pattern : regex :=
  Cat Wordb (Cat (lit "PMID") (Cat (Opt (Chr colon_or_space))
    (Cat (Grp (Rep is_digit 1 None)) Wordb))).

(** [r'(10\.\d{4,9}/[^\s:,\);]+)(?=PMID|$)'] *)
Definition doi_pattern : regex :=
  Cat (Grp (Cat (lit "10.") (Cat (Rep is_digit 4 (Some 9))
         (Cat (lit "/") (Rep doi_tail 1 None)))))
      (Ahead (Alt (lit "PMID") Eos)).

(** A string of the shape [10\.\d{4,9}/[^\s:,\);]+]. *)
Definition doi_shaped (d : chars) : Prop :=
  exists ds body,
    d = list_ascii_of_string "10." ++ ds ++ list_ascii_of_string "/" ++ body
    /\ 4 <= List.length ds <= 9 /\ forallb is_digit ds = true
    /\ 1 <= List.length body /\ forallb doi_tail body = true.

(** What the lookahead [(?=PMID|$)] asks of the text after the match. *)
Definition doi_stop (rest : chars) : bool :=
  starts_with (list_ascii_of_string "PMID") rest || at_eos (Cur [] rest).

(** The dictionary the parser returns: each key is present or absent. *)
Record ref_info : Type := RefInfo {
  pmid : option string;
  doi : option string;
  title : option string
}.

(** The two shapes of a result. *)
Definition has_identifier (r : ref_info) : Prop :=
  (is_Some (doi r) \/ is_Some (pmid r)) /\ title r = None.

Definition has_title_only (r : ref_info) : Prop :=
  doi r = None /\ pmid r = None /\ is_Some (title r).

(** Empty, or made of whitespace only. *)
Definition blank (reference : string) : bool :=
  forallb is_space (list_ascii_of_string reference).

(** Truth value of [None] or a string. *)
Definition truthy (o : option chars) : bool :=
  match o with
  | Some (_ :: _) => true
  | _ => false
  end.

Definition field (o : option chars) : option string :=
  if truthy o then option_map string_of_list_ascii o else None.

Definition extract_reference_info (reference : string) : ref_info :=
  let s := list_ascii_of_string reference in
  let pmid_v :=
    match search pmid_pattern s with
    | Some m => group1 m
    | None => None
    end in
  let doi_v :=
    match search doi_pattern s with
    | Some m => Some (group0 m)
    | None => None
    end in
  if negb (truthy pmid_v) && negb (truthy doi_v) then
    let title_start := (find_char ")" s + 1)%Z in
    RefInfo None None
      (Some (string_of_list_ascii (strip (slice_from title_start s))))
  else
    RefInfo (field pmid_v) (field doi_v) None.

(** What [\bPMID[:\s]?(\d+)\b] asks of a subject cut into five parts: the
    text before, "PMID", the separator, the digits, the text after. *)
Definition pmid_sep (sep : chars) : Prop :=
  sep = [] \/ exists c, sep = [c] /\ colon_or_space c = true.

Definition pmid_found (s pre sep ds rest : chars) : Prop :=
  s = pre ++ list_ascii_of_string "PMID" ++ sep ++ ds ++ rest
  /\ word_at (head (rev pre)) = false
  /\ pmid_sep sep
  /\ 1 <= List.length ds /\ forallb is_digit ds = true
  /\ word_at (head rest) = false.

End ReferenceProcessor.

(** ** citing_doi_matcher.py *)

Module DOIMatcher.
Import PyStr.

Definition doi_prefix : chars := list_ascii_of_string "doi:".

(** [s.replace("doi:", "", regex=False)] on one cell of the column. *)
Definition clean_id (s : string) : string :=
  string_of_list_ascii (delete_all doi_prefix (list_ascii_of_string s)).

(** The [id] column of the CSV file: a cell is a string or missing (NaN).
    The cleaning leaves a missing cell missing; [dropna] removes it. *)
Definition load_csv (ids : list (option string)) : gset string :=
  list_to_set (omap (fun cell => clean_id <$> cell) ids).

(** One value of the JSON object: the entry's own DOI and, when the key
    is present, its list of referenced DOIs. *)
Record entry : Type := Entry {
  entry_doi_field : string;
  referenced_dois : option (list string)
}.

(** [entry_data.get('referenced_dois', [])] *)
Definition get_referenced_dois (e : entry) : list string :=
  default [] (referenced_dois e).

(** The inner loop: one [append] per referenced DOI found in the set. *)
Definition match_entry (doi_set : gset string) (results : list (string * string))
    (entry_doi : string) (refs : list string) : list (string * string) :=
  fold_left
    (fun results referenced_doi =>
       if bool_decide (referenced_doi ∈ doi_set)
       then results ++ [(entry_doi, referenced_doi)]
       else results)
    refs results.

(** [json_data] is the parsed JSON object, in its iteration order. *)
Definition match_dois (doi_set : gset string) (json_data : list (string * entry))
    : list (string * string) :=
  fold_left
    (fun results item =>
       match_entry doi_set results (fst item) (get_referenced_dois (snd item)))
    json_data [].

(** [referenced_doi in doi_set] *)
Definition in_corpus (doi_set : gset string) (r : string) : bool :=
  bool_decide (r ∈ doi_set).

(** The edges one entry contributes, as a comprehension. *)
Definition edges_of (doi_set : gset string) (item : string * entry)
    : list (string * string) :=
  map (pair (fst item)) (List.filter (in_corpus doi_set) (get_referenced_dois (snd item))).

Definition edge_dec (x y : string * string) : {x = y} + {x <> y}.
Proof. decide equality; apply string_dec. Defined.

(** The parts of a string between the occurrences of "doi:" contain no
    "doi:" themselves. *)
Definition doi_free (p : chars) : Prop := occurs doi_prefix p = false.

End DOIMatcher.

(** ** Python values decoded from JSON, exceptions and printing *)

Module Py.

Inductive value : Type :=
| VNone
| VBool (b : bool)
| VInt (n : Z)
| VStr (s : string)
| VList (l : list value)
| VDict (d : list (string * value)).

(** The exception classes that occur. [RequestException] stands for
    [requests.RequestException] and its subclasses (ConnectionError,
    Timeout, HTTPError); [OtherException] for any other subclass of
    [Exception]. *)
Inductive exn : Type :=
| RequestException (kind : string)
| AttributeError
| TypeError
| KeyError
| IndexError
| OtherException (name : string).

Definition is_request_exception (e : exn) : bool :=
  match e with RequestException _ => true | _ => false end.

Definition is_exception (e : exn) : bool := true.

(** A line written by [print]: what was being fetched and the exception. *)
Record log_line : Type := ErrorLine { subject : string; reason : exn }.

Inductive res (A : Type) : Type :=
| Ok (a : A)
| Raise (e : exn).
Arguments Ok {A} a.
Arguments Raise {A} e.

(** A computation: the lines it printed and how it ended. *)
Definition M (A : Type) : Type := list log_line * res A.

Definition ret {A} (a : A) : M A := ([], Ok a).
Definition raise {A} (e : exn) : M A := ([], Raise e).
Definition print (l : log_line) : M unit := ([l], Ok tt).

Definition bind {A B} (m : M A) (f : A -> M B) : M B :=
  match m with
  | (out, Ok a) => let (out', r) := f a in (out ++ out', r)
  | (out, Raise e) => (out, Raise e)
  end.

(** [try: body  except <class> as e: handler e] *)
Definition try_except {A} (body : M A) (catches : exn -> bool) (handler : exn -> M A)
    : M A :=
  match body with
  | (out, Ok a) => (out, Ok a)
  | (out, Raise e) =>
      if catches e then let (out', r) := handler e in (out ++ out', r)
      else (out, Raise e)
  end.

Definition output {A} (m : M A) : list log_line := fst m.
Definition outcome {A} (m : M A) : res A := snd m.

Definition truthy (v : value) : bool :=
  match v with
  | VNone => false
  | VBool b => b
  | VInt n => negb (Z.eqb n 0)
  | VStr s => negb (String.eqb s "")
  | VList l => match l with [] => false | _ => true end
  | VDict d => match d with [] => false | _ => true end
  end.

Fixpoint lookup (k : string) (d : list (string * value)) : option value :=
  match d with
  | [] => None
  | (k', v) :: d' => if String.eqb k k' then Some v else lookup k d'
  end.

(** [v.get(k, dflt)] *)
Definition get (v : value) (k : string) (dflt : value) : M value :=
  match v with
  | VDict d => ret (default dflt (lookup k d))
  | _ => raise AttributeError
  end.

(** [v[0]] *)
Definition getitem0 (v : value) : M value :=
  match v with
  | VList (x :: _) => ret x
  | VList [] => raise IndexError
  | VStr (String c _) => ret (VStr (String c ""))
  | VStr EmptyString => raise IndexError
  | VDict _ => raise KeyError
  | _ => raise TypeError
  end.

(** [v[k]] for a string key *)
Definition getitem (v : value) (k : string) : M value :=
  match v with
  | VDict d =>
      match lookup k d with
      | Some x => ret x
      | None => raise KeyError
      end
  | _ => raise TypeError
  end.

(** The elements a [for] loop or a comprehension draws from [v]. *)
Definition iter (v : value) : M (list value) :=
  match v with
  | VList l => ret l
  | VStr s => ret (map (fun c => VStr (String c "")) (list_ascii_of_string s))
  | VDict d => ret (map (fun kv => VStr (fst kv)) d)
  | _ => raise TypeError
  end.

(** [v.lower()] *)
Definition lower (v : value) : M string :=
  match v with
  | VStr s => ret (PyStr.lower s)
  | _ => raise AttributeError
  end.

(** [a + b] where the other operand is known to be a string: [a] must be
    a string too. *)
Definition as_str_operand (a : value) : M string :=
  match a with
  | VStr s => ret s
  | _ => raise TypeError
  end.

Definition join (sep : string) (parts : list string) : string :=
  string_of_list_ascii
    (PyStr.join (list_ascii_of_string sep) (map list_ascii_of_string parts)).

(** [needle in s] *)
Definition contains (s needle : string) : bool :=
  PyStr.occurs (list_ascii_of_string needle) (list_ascii_of_string s).

(** [needle in v] for a string [needle] *)
Definition contains_str (needle : string) (v : value) : M bool :=
  match v with
  | VDict d => ret (match lookup needle d with Some _ => true | None => false end)
  | VStr s => ret (contains s needle)
  | VList l =>
      ret (existsb (fun x => match x with
                             | VStr s => String.eqb s needle
                             | _ => false
                             end) l)
  | _ => raise TypeError
  end.

(** [d[k] = v] on the bindings of a dictionary: the value of an existing
    key is replaced where it stands, a new key goes to the end. *)
Fixpoint dict_set (k : string) (v : value) (d : list (string * value))
    : list (string * value) :=
  match d with
  | [] => [(k, v)]
  | (k', v') :: d' =>
      if String.eqb k k' then (k, v) :: d' else (k', v') :: dict_set k v d'
  end.

(** [x[k] = v] *)
Definition setitem (x : value) (k : string) (v : value) : M value :=
  match x with
  | VDict d => ret (VDict (dict_set k v d))
  | _ => raise TypeError
  end.

(** [v.items()], and with [snd] the elements of [v.values()] *)
Definition items (v : value) : M (list (string * value)) :=
  match v with
  | VDict d => ret d
  | _ => raise AttributeError
  end.

End Py.

Declare Scope py_scope.
Delimit Scope py_scope with py.
Notation "'let*' x ':=' m 'in' k" := (Py.bind m (fun x => k))
  (at level 10, x name, m at level 100, k at level 200) : py_scope.
Notation "'do' m 'in' k" := (Py.bind m (fun _ => k))
  (at level 10, m at level 100, k at level 200) : py_scope.

Module Loops.
Import Py.
Local Open Scope py_scope.

(** A list comprehension whose element expression may raise. *)
Fixpoint comprehension {A B} (f : A -> M B) (l : list A) : M (list B) :=
  match l with
  | [] => ret []
  | x :: l' =>
      let* y := f x in
      let* ys := comprehension f l' in
      ret (y :: ys)
  end.

(** A [for] loop threading the variables it assigns. *)
Fixpoint for_each {A S} (l : list A) (body : S -> A -> M S) (s : S) : M S :=
  match l with
  | [] => ret s
  | x :: l' =>
      let* s' := body s x in
      for_each l' body s'
  end.

End Loops.

(** ** cited_articles_metadata_gatherer.py *)

Module CrossRefProcessor.
Import Py Loops.
Local Open Scope py_scope.

(** What [requests.get(url)] meets: no response at all (connection
    error, timeout), or a response with a status code and a body; the
    body is taken to be decodable JSON. *)
Inductive http : Type :=
| NoResponse (kind : string)
| Response (status : Z) (body : value).

Definition requests_get (net : http) : M (Z * value) :=
  match net with
  | NoResponse kind => raise (RequestException kind)
  | Response status body => ret (status, body)
  end.

(** [response.raise_for_status()] *)
Definition raise_for_status (response : Z * value) : M unit :=
  if (400 <=? fst response)%Z && (fst response <? 600)%Z
  then raise (RequestException "HTTPError")
  else ret tt.

(** [response.json()] *)
Definition json (response : Z * value) : M value := ret (snd response).

(** The dictionary [get_crossref_data] returns on success. *)
Record crossref_data : Type := CrossrefData {
  cd_doi : string;
  cd_title : value;
  cd_publisher : value;
  cd_issue : value;
  cd_date_time : value;
  cd_authors : string;
  cd_references : value
}.

Record ref_entry : Type := RefEntry {
  re_doi : string;
  referenced_entities : value
}.

Record csv_row : Type := CsvRow {
  primary_id : string;
  id : string;
  title : value;
  author : string;
  pub_date : value;
  venue : string;
  volume : string;
  issue : value;
  page : string;
  type_ : string;
  publisher : value;
  editor : string
}.

Section WithFormat.

(** [format(v, "")] inside an f-string, i.e. [str(v)]: a Python
    builtin. *)
Variable py_format : value -> string.

(** The result [None] stands for the empty dictionary [{}]. *)
Definition get_crossref_data (doi : string) (net : http) : M (option crossref_data) :=
  try_except
    (let* response := requests_get net in
     do raise_for_status response in
     let* body := json response in
     let* data := get body "message" (VDict []) in
     let* has_title := get data "title" VNone in
     let* title :=
       (if truthy has_title
        then let* t := get data "title" (VList [VStr ""]) in getitem0 t
        else ret (VStr "No Title Available")) in
     let* publisher := get data "publisher" (VStr "") in
     let* issue := get data "issue" (VStr "") in
     let* created := get data "created" (VDict []) in
     let* date_time := get created "date-time" (VStr "") in
     let* author_list := get data "author" (VList []) in
     let* author_items := iter author_list in
     let* authors :=
       comprehension
         (fun author =>
            let* given := get author "given" (VStr "") in
            let* family := get author "family" (VStr "") in
            ret (py_format given ++ " " ++ py_format family)%string)
         author_items in
     let* references := get data "reference" (VList []) in
     ret (Some (CrossrefData doi title publisher issue date_time
                  (Py.join "; " authors) references)))
    is_request_exception
    (fun e => do print (ErrorLine doi e) in ret None).

Definition make_csv_row (primary_doi : string) (d : crossref_data) : csv_row :=
  CsvRow primary_doi (cd_doi d) (cd_title d) (cd_authors d) (cd_date_time d)
         "" "" (cd_issue d) "" "" (cd_publisher d) "".

(** [rows]: the [doi_citing_entity] column, each DOI with what the
    network answers when it is fetched. The result is the pair
    [(references_data, csv_rows)] that is then written out. *)
Definition process_data (rows : list (string * http))
    : M (gmap string ref_entry * list csv_row) :=
  for_each rows
    (fun st row =>
       let primary_doi := fst row in
       let* fetched := get_crossref_data primary_doi (snd row) in
       match fetched with
       | Some d =>
           ret (<[primary_doi := RefEntry primary_doi (cd_references d)]> (fst st),
                snd st ++ [make_csv_row primary_doi d])
       | None => ret st
       end)
    (∅, []).

End WithFormat.

(** The exception a request ends with before any payload is read: no
    response, or a status from 400 to 599. *)
Definition request_error (net : http) : option exn :=
  match net with
  | NoResponse kind => Some (RequestException kind)
  | Response status _ =>
      if (400 <=? status)%Z && (status <? 600)%Z
      then Some (RequestException "HTTPError") else None
  end.

End CrossRefProcessor.

(** ** citation_finder.py *)

Module SPARQLCitationExtractor.
Import Py Loops.
Local Open Scope py_scope.

(** [net] is what [sparql.query().convert()] does: it returns the decoded
    answer or raises. *)
Definition query_sparql_citing (cited_entity_url : string) (net : res value) : M value :=
  try_except
    (let* results := ([], net) in
     let* r := getitem results "results" in
     getitem r "bindings")
    is_exception
    (fun e => do print (ErrorLine cited_entity_url e) in ret VNone).

Definition query_sparql_cited (citing_entity_url : string) (net : res value) : M value :=
  try_except
    (let* results := ([], net) in
     let* r := getitem results "results" in
     getitem r "bindings")
    is_exception
    (fun e => do print (ErrorLine citing_entity_url e) in ret VNone).

(** One dictionary appended to [citations_list]. *)
Record found : Type := Found {
  f_journal : string;
  f_citation : value;
  f_entity : value
}.

Definition collect (query : string -> res value -> M value) (entity_key : string)
    (journals : list (string * res value)) : M (list found) :=
  for_each journals
    (fun citations_list item =>
       let journal_url := fst item in
       let* sparql_results := query journal_url (snd item) in
       if truthy sparql_results then
         let* results := iter sparql_results in
         for_each results
           (fun citations_list result =>
              let* c := get result "citation" (VDict []) in
              let* citation := get c "value" (VStr "") in
              let* e := get result entity_key (VDict []) in
              let* entity := get e "value" (VStr "") in
              ret (citations_list ++ [Found journal_url citation entity]))
           citations_list
       else ret citations_list)
    [].

Definition extract_citing_data := collect query_sparql_citing "citing_entity".
Definition extract_cited_data := collect query_sparql_cited "cited_entity".

(** *** The merge of the two CSV files

    A row of [sparql_results.csv] or [sparql_results_cited.csv] as
    [pd.read_csv] gives it back: the key column [journal] and two cells
    that are a string or missing (NaN). *)
Record side_row : Type := SideRow {
  journal : string;
  citation : option string;
  entity : option string
}.

(** A row of [all_citations.csv]; the columns are [journal],
    [citationciting], [citing_entity], [citationcited], [cited_entity]. *)
Record merged_row : Type := MergedRow {
  m_journal : string;
  citationciting : option string;
  citing_entity : option string;
  citationcited : option string;
  cited_entity : option string
}.

Fixpoint insert_sorted (k : string) (l : list string) : list string :=
  match l with
  | [] => [k]
  | x :: l' => if String.leb k x then k :: l else x :: insert_sorted k l'
  end.

(** The distinct keys of both tables, in lexicographic order. *)
Definition union_keys (l r : list string) : list string :=
  fold_right insert_sorted [] (remove_dups (l ++ r)).

Definition rows_of (k : string) (t : list side_row) : list side_row :=
  List.filter (fun row => bool_decide (journal row = k)) t.

Definition both (l r : side_row) : merged_row :=
  MergedRow (journal l) (citation l) (entity l) (citation r) (entity r).
Definition left_only (l : side_row) : merged_row :=
  MergedRow (journal l) (citation l) (entity l) None None.
Definition right_only (r : side_row) : merged_row :=
  MergedRow (journal r) None None (citation r) (entity r).

(** The rows [pd.merge(..., how="outer")] produces for one key. *)
Definition merge_key (ls rs : list side_row) : list merged_row :=
  match ls, rs with
  | [], _ => map right_only rs
  | _, [] => map left_only ls
  | _, _ => flat_map (fun l => map (both l) rs) ls
  end.

(** [pd.merge(citing_df, cited_df, on="journal", how="outer",
    suffixes=('citing', 'cited'))] *)
Definition merge_citing_and_cited_data (citing_df cited_df : list side_row)
    : list merged_row :=
  flat_map
    (fun k => merge_key (rows_of k citing_df) (rows_of k cited_df))
    (union_keys (map journal citing_df) (map journal cited_df)).

(** [merged_df["journal"] == k] on one row *)
Definition has_key (k : string) (row : merged_row) : bool :=
  bool_decide (m_journal row = k).

End SPARQLCitationExtractor.

(** ** new_doi_validator.py *)

Module DOIValidator.
Import Py Loops.
Local Open Scope py_scope.

Record validation : Type := Validation {
  v_doi : string;
  opencitations_title : string;
  crossref_title : string;
  title_match : bool;
  opencitations_author : string;
  crossref_author : string;
  author_match : bool;
  opencitations_publisher : string;
  crossref_publisher : string;
  publisher_match : bool;
  valid : bool
}.

Definition validate_doi (doi : string) (opencitations_data crossref_data : value)
    : M validation :=
  let* oc_title_v := get opencitations_data "title" (VStr "") in
  let* oc_title := lower oc_title_v in
  let* oc_author_v := get opencitations_data "author" (VStr "") in
  let* oc_author := lower oc_author_v in
  let* oc_publisher_v := get opencitations_data "publisher" (VStr "") in
  let* oc_publisher := lower oc_publisher_v in
  let* has_title := get crossref_data "title" VNone in
  let* cr_title :=
    (if truthy has_title
     then let* t := get crossref_data "title" (VList [VStr ""]) in
          let* t0 := getitem0 t in
          lower t0
     else ret "") in
  let* author_list := get crossref_data "author" (VList []) in
  let* author_items := iter author_list in
  let* names :=
    comprehension
      (fun author =>
         let* given := getitem author "given" in
         let* given_s := as_str_operand given in
         let* family := getitem author "family" in
         let* family_s := as_str_operand family in
         ret (given_s ++ " " ++ family_s)%string)
      author_items in
  let cr_author := PyStr.lower (Py.join ", " names) in
  let* cr_publisher_v := get crossref_data "publisher" (VStr "") in
  let* cr_publisher := lower cr_publisher_v in
  let title_match := String.eqb oc_title cr_title in
  let author_match :=
    if negb (String.eqb oc_author "") then contains cr_author oc_author else true in
  let publisher_match := String.eqb oc_publisher cr_publisher in
  ret (Validation doi oc_title cr_title title_match oc_author cr_author author_match
         oc_publisher cr_publisher publisher_match
         (title_match || (author_match && publisher_match))).

(** Records of the expected form: the OpenCitations fields are strings
    when present; in the Crossref record the publisher is a string when
    present, the title a list that is empty or starts with a string, and
    every author entry has the keys "given" and "family" with strings. *)
Definition str_or_absent (d : list (string * value)) (k : string) : Prop :=
  match lookup k d with
  | None | Some (VStr _) => True
  | Some _ => False
  end.

Definition named_author (a : value) : Prop :=
  exists d g f,
    a = VDict d /\ lookup "given" d = Some (VStr g) /\ lookup "family" d = Some (VStr f).

Definition well_formed_opencitations (d : list (string * value)) : Prop :=
  str_or_absent d "title" /\ str_or_absent d "author" /\ str_or_absent d "publisher".

Definition well_formed_crossref (d : list (string * value)) : Prop :=
  str_or_absent d "publisher"
  /\ match lookup "title" d with
     | None | Some (VList []) | Some (VList (VStr _ :: _)) => True
     | Some _ => False
     end
  /\ match lookup "author" d with
     | None => True
     | Some (VList l) => Forall named_author l
     | Some _ => False
     end.

End DOIValidator.

(** ** reference_formatter_for_crossref.py: the pass over the JSON file *)

Module ReferenceBatch.
Import Py Loops ReferenceProcessor.
Local Open Scope py_scope.

(** The dictionary [extract_reference_info] returns, as a value; the keys
    are inserted in the order pmid, doi. *)
Definition info_to_value (r : ref_info) : value :=
  VDict (match pmid r with Some p => [("pmid", VStr p)] | None => [] end
         ++ match doi r with Some d => [("doi", VStr d)] | None => [] end
         ++ match title r with Some t => [("title", VStr t)] | None => [] end).

(** [extract_reference_info(ref)]: [re.search] raises TypeError on anything
    but a string. *)
Definition parse_reference (ref : value) : M value :=
  match ref with
  | VStr s => ret (info_to_value (extract_reference_info s))
  | _ => raise TypeError
  end.

(** The body of the loop over [data.values()]. *)
Definition process_entry (entry : value) : M value :=
  let* refs := get entry "references" (VList []) in
  let* ref_items := iter refs in
  let* updated_references := comprehension parse_reference ref_items in
  setitem entry "references" (VList updated_references).

(** [data] is the decoded input file; the result is [data] after the loop,
    as it is written to the output file. *)
Definition process_references (data : value) : M value :=
  let* entries := items data in
  let* updated :=
    comprehension
      (fun kv => let* entry := process_entry (snd kv) in ret (fst kv, entry))
      entries in
  ret (VDict updated).

(** The references of an entry when they are strings: none when the key
    is missing. *)
Definition reference_strings (d : list (string * value)) : option (list string) :=
  match lookup "references" d with
  | None => Some []
  | Some (VList l) => mapM (fun v => match v with VStr s => Some s | _ => None end) l
  | Some _ => None
  end.

(** The entry after the pass. *)
Definition parsed_entry (d : list (string * value)) : value :=
  VDict (dict_set "references"
           (VList (map (fun s => info_to_value (extract_reference_info s))
                       (default [] (reference_strings d))))
           d).

(** An entry that went through the pass: a dictionary whose references
    are dictionaries. *)
Definition passed (e : value) : Prop :=
  exists d upd,
    e = VDict d /\ lookup "references" d = Some (VList upd)
    /\ Forall (fun r => exists rd, r = VDict rd) upd.

End ReferenceBatch.

(** ** cited_articles_metadata_gatherer.py: the referenced DOIs *)

Module CrossRefFilter.
Import Py Loops.
Local Open Scope py_scope.

(** One value of [filtered_data]. *)
Record filtered_entry : Type := FilteredEntry {
  fe_doi : string;
  fe_referenced_dois : list value
}.

(** The inner loop over [details.get("referenced_entities", [])]. *)
Definition referenced_dois_of (entities : list value) : M (list value) :=
  for_each entities
    (fun dois entity =>
       let* has_doi := contains_str "DOI" entity in
       if has_doi
       then let* d := getitem entity "DOI" in ret (dois ++ [d])
       else ret dois)
    [].

(** [data] is the decoded metadata file, a dictionary (its keys are
    distinct); the result is [filtered_data] in insertion order. *)
Definition filter_referenced_dois (data : value) : M (list (string * filtered_entry)) :=
  let* entries := items data in
  for_each entries
    (fun filtered_data kv =>
       let doi := fst kv in
       let* entities_v := get (snd kv) "referenced_entities" (VList []) in
       let* entities := iter entities_v in
       let* dois := referenced_dois_of entities in
       ret (filtered_data ++ [(doi, FilteredEntry doi dois)]))
    [].

(** An entry of the metadata file as [process_data] writes it, with a
    reference list made of dictionaries. *)
Definition metadata_entry (kv : string * list (list (string * value))) : string * value :=
  (fst kv,
   VDict [("doi", VStr (fst kv));
          ("referenced_entities", VList (map VDict (snd kv)))]).

(** The filtered file as the matcher reads it, when every referenced DOI
    is a string. *)
Definition as_string (v : value) : option string :=
  match v with VStr s => Some s | _ => None end.

Definition matcher_entry (kv : string * filtered_entry) : option (string * DOIMatcher.entry) :=
  match mapM as_string (fe_referenced_dois (snd kv)) with
  | Some l => Some (fst kv, DOIMatcher.Entry (fe_doi (snd kv)) (Some l))
  | None => None
  end.

Definition matcher_input (filtered_data : list (string * filtered_entry))
    : option (list (string * DOIMatcher.entry)) :=
  mapM matcher_entry filtered_data.

End CrossRefFilter.

(** ** citing_doi_matcher.py: the pipeline *)

Module DOIMatcherPipeline.
Import DOIMatcher.

(** [process]: the matches found between the [id] column of the CSV file
    and the JSON data, as they are saved. *)
Definition process (ids : list (option string)) (json_data : list (string * entry))
    : list (string * string) :=
  match_dois (load_csv ids) json_data.

End DOIMatcherPipeline.

(** ** new_doi_validator.py: fetching and the loop over the DOIs *)

Module DOIValidatorBatch.
Import Py Loops CrossRefProcessor DOIValidator.
Local Open Scope py_scope.

(** The result [VNone] is Python's [None]. *)
Definition get_opencitations_metadata (doi : string) (net : http) : M value :=
  try_except
    (let* response := requests_get net in
     do raise_for_status response in
     let* data := json response in
     if truthy data then getitem0 data else ret VNone)
    is_exception
    (fun e => do print (ErrorLine doi e) in ret VNone).

Definition get_crossref_metadata (doi : string) (net : http) : M value :=
  try_except
    (let* response := requests_get net in
     do raise_for_status response in
     let* data := json response in
     let* has_message := contains_str "message" data in
     if has_message then getitem data "message" else ret VNone)
    is_exception
    (fun e => do print (ErrorLine doi e) in ret VNone).

(** An element of [self.results]. *)
Inductive result : Type :=
| Validated (v : validation)
| RetrievalFailed (doi : string).

Definition result_doi (r : result) : string :=
  match r with
  | Validated v => v_doi v
  | RetrievalFailed doi => doi
  end.

(** [items]: each DOI of [doi_list] with what OpenCitations and Crossref
    answer for it; [results] is [self.results] before the call. *)
Definition validate_doi_list (items : list (string * (http * http)))
    (results : list result) : M (list result) :=
  for_each items
    (fun results item =>
       let doi := fst item in
       let* opencitations_data := get_opencitations_metadata doi (fst (snd item)) in
       let* crossref_data := get_crossref_metadata doi (snd (snd item)) in
       if truthy opencitations_data && truthy crossref_data then
         let* validation_result := validate_doi doi opencitations_data crossref_data in
         ret (results ++ [Validated validation_result])
       else ret (results ++ [RetrievalFailed doi]))
    results.

End DOIValidatorBatch.

(** ** try_for_ref.py: the references of a PDF text *)

Module PdfReferences.
Import PyStr.



End PdfReferences.

(** * Properties *)

(** ** The matcher against the reading of patterns *)

Module ReFacts.
Import PyStr Re.

Lemma rev_cons_app (x : ascii) (xs bef : chars) :
  rev (x :: xs) ++ bef = rev xs ++ x :: bef.
Proof. simpl. rewrite <- app_assoc. reflexivity. Qed.

Lemma rep_sound {R} p (k : cursor -> option R) res aft :
  forall lo hi bef,
    rep p lo hi bef aft k = Some res ->
    exists xs aft',
      aft = xs ++ aft' /\ lo <= List.length xs /\ within hi (List.length xs)
      /\ forallb p xs = true /\ k (Cur (rev xs ++ bef) aft') = Some res.
Proof.
  assert (Hstop : forall lo hi bef aft0,
    match lo with O => k (Cur bef aft0) | S _ => None end = Some res ->
    exists xs aft', aft0 = xs ++ aft' /\ lo <= List.length xs
      /\ within hi (List.length xs) /\ forallb p xs = true
      /\ k (Cur (rev xs ++ bef) aft') = Some res).
  { intros lo hi bef aft0 H. destruct lo; [|discriminate].
    exists [], aft0. simpl. repeat split; auto.
    destruct hi; simpl; lia. }
  induction aft as [|x aft IH]; intros lo hi bef H; simpl in H.
  - apply Hstop; exact H.
  - destruct (p x && can_more hi) eqn:E; [|apply Hstop; exact H].
    apply andb_true_iff in E as [Hp Hm].
    destruct (rep p (pred lo) (one_less hi) (x :: bef) aft k) eqn:Er.
    + inversion H; subst. apply IH in Er as (xs & aft' & -> & Hlo & Hhi & Hall & Hk).
      exists (x :: xs), aft'. rewrite rev_cons_app. simpl. rewrite Hp, Hall.
      repeat split; auto; [lia|].
      destruct hi as [[|h]|]; simpl in *; try discriminate; lia.
    + apply Hstop; exact H.
Qed.

Lemma rep_complete {R} p (k : cursor -> option R) xs :
  forall lo hi bef aft',
    lo <= List.length xs -> within hi (List.length xs) -> forallb p xs = true ->
    k (Cur (rev xs ++ bef) aft') <> None ->
    rep p lo hi bef (xs ++ aft') k <> None.
Proof.
  induction xs as [|x xs IH]; intros lo hi bef aft' Hlo Hhi Hall Hk; simpl in *.
  - assert (lo = 0) as -> by lia.
    destruct aft' as [|y aft'']; simpl; auto.
    destruct (p y && can_more hi); auto.
    destruct (rep p 0 (one_less hi) (y :: bef) aft'' k); auto; discriminate.
  - apply andb_true_iff in Hall as [Hp Hall]. rewrite Hp.
    assert (can_more hi = true) as ->.
    { destruct hi as [[|h]|]; simpl in *; auto; lia. }
    simpl.
    destruct (rep p (pred lo) (one_less hi) (x :: bef) (xs ++ aft') k) eqn:Er;
      [discriminate|].
    exfalso. revert Er. apply IH; auto; [lia| |].
    + destruct hi as [h|]; simpl in *; auto; lia.
    + rewrite <- app_assoc in Hk. exact Hk.
Qed.

(** Every success of the matcher is a match of the pattern. *)
Lemma run_sound r :
  forall R c g (k : cursor -> option chars -> option R) res,
    run r c g k = Some res ->
    exists c' g', matches r c c' /\ k c' g' = Some res.
Proof.
  induction r; intros R c g k res H; simpl in H.
  - exists c, g. split; [constructor|exact H].
  - destruct c as [bef [|x aft]]; simpl in H; [discriminate|].
    destruct (p x) eqn:E; [|discriminate].
    eexists _, g. split; [constructor; exact E|exact H].
  - apply IHr1 in H as (c1 & g1 & H1 & H).
    apply IHr2 in H as (c2 & g2 & H2 & H).
    exists c2, g2. split; [econstructor; eauto|exact H].
  - destruct (run r1 c g k) eqn:E.
    + inversion H; subst. apply IHr1 in E as (c1 & g1 & H1 & E).
      exists c1, g1. split; [apply M_AltL; exact H1|exact E].
    + apply IHr2 in H as (c1 & g1 & H1 & H).
      exists c1, g1. split; [apply M_AltR; exact H1|exact H].
  - destruct (run r c g k) eqn:E.
    + inversion H; subst. apply IHr in E as (c1 & g1 & H1 & E).
      exists c1, g1. split; [apply M_OptSome; exact H1|exact E].
    + exists c, g. split; [apply M_OptNone|exact H].
  - apply rep_sound in H as (xs & aft' & Ha & Hlo & Hhi & Hall & Hk).
    exists (Cur (rev xs ++ before c) aft'), g. split; [|exact Hk].
    destruct c as [bef aft]; simpl in *; subst. constructor; auto.
  - destruct (run r c g (fun _ g1 => Some g1)) eqn:E; [|discriminate].
    apply IHr in E as (c1 & g1 & H1 & E).
    exists c, o. split; [econstructor; exact H1|exact H].
  - destruct (at_eos c) eqn:E; [|discriminate].
    exists c, g. split; [constructor; exact E|exact H].
  - destruct (at_wordb c) eqn:E; [|discriminate].
    exists c, g. split; [constructor; exact E|exact H].
  - apply IHr in H as (c1 & g1 & H1 & H).
    exists c1, (Some (span c c1)). split; [constructor; exact H1|exact H].
Qed.

(** Backtracking loses nothing: if the pattern matches up to a position
    the continuation accepts, the matcher succeeds. *)
Lemma run_complete r c c' :
  matches r c c' ->
  forall R g (k : cursor -> option chars -> option R),
    (forall g', k c' g' <> None) -> run r c g k <> None.
Proof.
  induction 1; intros R g k Hk; simpl.
  - apply Hk.
  - rewrite H. apply Hk.
  - apply IHmatches1. intros g'. apply IHmatches2. exact Hk.
  - destruct (run r c g k) eqn:E; [discriminate|].
    exfalso. revert E. apply IHmatches. exact Hk.
  - destruct (run r c g k) eqn:E; [discriminate|]. apply IHmatches. exact Hk.
  - destruct (run r c g k) eqn:E; [discriminate|].
    exfalso. revert E. apply IHmatches. exact Hk.
  - destruct (run r c g k) eqn:E; [discriminate|]. apply Hk.
  - apply rep_complete; auto.
  - destruct (run r c g (fun _ g1 => Some g1)) eqn:E; [apply Hk|].
    exfalso. revert E. apply IHmatches. discriminate.
  - rewrite H. apply Hk.
  - rewrite H. apply Hk.
  - apply IHmatches. intros g'. apply Hk.
Qed.

(** A match consumes a prefix of what lies to the right. *)
Lemma matches_consumes r c c' :
  matches r c c' ->
  exists xs, after c = xs ++ after c' /\ before c' = rev xs ++ before c.
Proof.
  induction 1; simpl; try (exists []; split; reflexivity).
  - exists [x]. split; reflexivity.
  - destruct IHmatches1 as (xs & Ha & Hb). destruct IHmatches2 as (ys & Ha' & Hb').
    exists (xs ++ ys). rewrite Ha, Ha', Hb', Hb, rev_app_distr, <- !app_assoc.
    split; reflexivity.
  - exact IHmatches.
  - exact IHmatches.
  - exact IHmatches.
  - exists xs. split; reflexivity.
  - exact IHmatches.
Qed.

Lemma span_consumed bef xs aft aft' :
  span (Cur bef aft) (Cur (rev xs ++ bef) aft') = xs.
Proof.
  unfold span. simpl. rewrite length_app, length_rev.
  replace (List.length xs + List.length bef - List.length bef)
    with (List.length (rev xs) + 0) by (rewrite length_rev; lia).
  rewrite firstn_app_2. simpl. rewrite app_nil_r. apply rev_involutive.
Qed.

Lemma search_sound r aft :
  forall bef m,
    search_from r bef aft = Some m ->
    exists pre d rest,
      aft = pre ++ d ++ rest
      /\ matches r (Cur (rev pre ++ bef) (d ++ rest)) (Cur (rev d ++ rev pre ++ bef) rest)
      /\ group0 m = d.
Proof.
  assert (Hhere : forall bef aft0 m, match_at r (Cur bef aft0) = Some m ->
    exists d rest, aft0 = d ++ rest
      /\ matches r (Cur bef (d ++ rest)) (Cur (rev d ++ bef) rest) /\ group0 m = d).
  { intros bef aft0 m H. unfold match_at in H.
    apply run_sound in H as (c' & g' & Hm & H). inversion H; subst; clear H.
    destruct (matches_consumes _ _ _ Hm) as (xs & Ha & Hb). simpl in *.
    destruct c' as [bef' aft']; simpl in *; subst.
    exists xs, aft'. repeat split; auto. apply span_consumed. }
  induction aft as [|x aft IH]; intros bef m H; simpl in H.
  - destruct (match_at r (Cur bef [])) eqn:E; [|discriminate].
    inversion H; subst. apply Hhere in E as (d & rest & Ha & Hm & Hg).
    exists [], d, rest. simpl. auto.
  - destruct (match_at r (Cur bef (x :: aft))) eqn:E.
    + inversion H; subst. apply Hhere in E as (d & rest & Ha & Hm & Hg).
      exists [], d, rest. simpl. auto.
    + apply IH in H as (pre & d & rest & -> & Hm & Hg).
      exists (x :: pre), d, rest. rewrite rev_cons_app. simpl. auto.
Qed.

Lemma search_complete r pre :
  forall bef d rest,
    matches r (Cur (rev pre ++ bef) (d ++ rest)) (Cur (rev d ++ rev pre ++ bef) rest) ->
    search_from r bef (pre ++ d ++ rest) <> None.
Proof.
  assert (Hhere : forall bef aft0 c', matches r (Cur bef aft0) c' ->
            match_at r (Cur bef aft0) <> None).
  { intros bef aft0 c' Hm. unfold match_at.
    apply (run_complete _ _ _ Hm). discriminate. }
  induction pre as [|x pre IH]; intros bef d rest Hm; simpl in *.
  - apply Hhere in Hm.
    destruct (d ++ rest); simpl; destruct (match_at r _); try discriminate;
      exfalso; apply Hm; reflexivity.
  - destruct (match_at r (Cur bef (x :: pre ++ d ++ rest))); [discriminate|].
    apply IH. rewrite <- !app_assoc in Hm. simpl in Hm. exact Hm.
Qed.

End ReFacts.

(** ** The reference parser *)

Module ReferenceFacts.
Import PyStr Re ReFacts ReferenceProcessor.

Lemma lit_chars_inv l : forall c c',
  matches (lit_chars l) c c' ->
  after c = l ++ after c' /\ before c' = rev l ++ before c.
Proof.
  induction l as [|a l IH]; intros c c' H; simpl in H.
  - inversion H; subst. split; reflexivity.
  - inversion H; subst; clear H.
    match goal with H : matches (lit_char a) _ _ |- _ => inversion H; subst; clear H end.
    match goal with H : Ascii.eqb a _ = true |- _ => apply Ascii.eqb_eq in H; subst end.
    match goal with H : matches (lit_chars l) _ _ |- _ => apply IH in H as [H1 H2] end.
    simpl in *. rewrite H1, H2, <- app_assoc. split; reflexivity.
Qed.

Lemma lit_chars_intro l : forall bef aft,
  matches (lit_chars l) (Cur bef (l ++ aft)) (Cur (rev l ++ bef) aft).
Proof.
  induction l as [|a l IH]; intros bef aft; simpl.
  - constructor.
  - apply M_Cat with (c2 := Cur (a :: bef) (l ++ aft)).
    + constructor. apply Ascii.eqb_refl.
    + rewrite <- app_assoc. apply IH.
Qed.

Lemma starts_with_app p : forall l,
  starts_with p l = true <-> exists t, l = p ++ t.
Proof.
  induction p as [|a p IH]; intros l; simpl.
  - split; [exists l; reflexivity|reflexivity].
  - destruct l as [|b l]; simpl.
    + split; [discriminate|intros [t Ht]; discriminate].
    + rewrite andb_true_iff, Ascii.eqb_eq, IH. split.
      * intros [-> [t ->]]. exists t. reflexivity.
      * intros [t Ht]. inversion Ht; subst. split; [reflexivity|exists t; reflexivity].
Qed.

Lemma doi_pattern_sound c c' :
  matches doi_pattern c c' ->
  exists d, after c = d ++ after c' /\ doi_shaped d /\ doi_stop (after c') = true.
Proof.
  unfold doi_pattern. intros H.
  inversion H as [| |? ? ? c2 ? Hg Hl| | | | | | | | |]; subst; clear H.
  inversion Hl as [| | | | | | | |? ? c3 Halt| | |]; subst; clear Hl.
  inversion Hg as [| | | | | | | | | | |? ? ? Hb]; subst; clear Hg.
  inversion Hb as [| |? ? ? c4 ? H10 Hb1| | | | | | | | |]; subst; clear Hb.
  inversion Hb1 as [| |? ? ? c5 ? Hds Hb2| | | | | | | | |]; subst; clear Hb1.
  inversion Hb2 as [| |? ? ? c6 ? Hsl Hbody| | | | | | | | |]; subst; clear Hb2.
  inversion Hds as [| | | | | | |? ? ? bef1 ds aft1 Hlo Hhi Hdig| | | |]; subst; clear Hds.
  inversion Hbody as [| | | | | | |? ? ? bef2 body aft2 Hlo2 Hhi2 Htail| | | |];
    subst; clear Hbody.
  apply lit_chars_inv in H10 as [Ha1 _].
  apply lit_chars_inv in Hsl as [Ha2 _].
  simpl in Ha1, Ha2. simpl in Hhi.
  exists (list_ascii_of_string "10." ++ ds ++ list_ascii_of_string "/" ++ body).
  split; [|split].
  - rewrite Ha1, Ha2. simpl. rewrite <- !app_assoc. reflexivity.
  - exists ds, body. repeat split; auto.
  - unfold doi_stop. simpl.
    inversion Halt as [| | |? ? ? ? Hp|? ? ? ? He| | | | | | |]; subst; clear Halt.
    + apply lit_chars_inv in Hp as [Hp _]. simpl in Hp. rewrite Hp. reflexivity.
    + inversion He; subst. unfold at_eos in *. simpl in *.
      match goal with H : _ = true |- _ => rewrite H end. apply orb_true_r.
Qed.

Lemma doi_pattern_complete bef d rest :
  doi_shaped d -> doi_stop rest = true ->
  matches doi_pattern (Cur bef (d ++ rest)) (Cur (rev d ++ bef) rest).
Proof.
  intros (ds & body & -> & [Hlo Hhi] & Hdig & Hb & Htail) Hstop.
  unfold doi_pattern.
  apply M_Cat with (c2 := Cur (rev (list_ascii_of_string "10." ++ ds
                             ++ list_ascii_of_string "/" ++ body) ++ bef) rest).
  - constructor.
    set (b1 := rev (list_ascii_of_string "10.") ++ bef).
    set (b2 := rev ds ++ b1).
    set (b3 := rev (list_ascii_of_string "/") ++ b2).
    replace (rev (list_ascii_of_string "10." ++ ds ++ list_ascii_of_string "/" ++ body)
             ++ bef) with (rev body ++ b3)
      by (subst b1 b2 b3; rewrite !rev_app_distr, <- !app_assoc; reflexivity).
    rewrite <- !app_assoc.
    apply M_Cat with (c2 := Cur b1 (ds ++ list_ascii_of_string "/" ++ body ++ rest));
      [apply lit_chars_intro|].
    apply M_Cat with (c2 := Cur b2 (list_ascii_of_string "/" ++ body ++ rest));
      [constructor; simpl; auto|].
    apply M_Cat with (c2 := Cur b3 (body ++ rest)); [apply lit_chars_intro|].
    constructor; simpl; auto.
  - apply M_Ahead with (c' := match rest with
                               | _ :: _ :: _ =>
                                   Cur (rev (list_ascii_of_string "PMID")
                                        ++ rev (list_ascii_of_string "10." ++ ds
                                             ++ list_ascii_of_string "/" ++ body) ++ bef)
                                       (skipn 4 rest)
                               | _ => Cur (rev (list_ascii_of_string "10." ++ ds
                                             ++ list_ascii_of_string "/" ++ body) ++ bef)
                                          rest
                               end).
    unfold doi_stop in Hstop. apply orb_true_iff in Hstop as [Hp|He].
    + apply starts_with_app in Hp as [t ->]. simpl.
      apply M_AltL. apply (lit_chars_intro (list_ascii_of_string "PMID")).
    + unfold at_eos in He. simpl in He.
      destruct rest as [|x [|y rest]]; try discriminate;
        apply M_AltR; constructor; unfold at_eos; simpl; auto.
Qed.

Lemma doi_shaped_nonempty d : doi_shaped d -> truthy (Some d) = true.
Proof. intros (ds & body & -> & _). reflexivity. Qed.

Lemma search_doi_sound s m :
  search doi_pattern s = Some m ->
  exists pre rest,
    s = pre ++ group0 m ++ rest /\ doi_shaped (group0 m) /\ doi_stop rest = true.
Proof.
  intros H. apply search_sound in H as (pre & d & rest & -> & Hm & <-).
  apply doi_pattern_sound in Hm as (d' & Hd & Hsh & Hst). simpl in *.
  apply app_inv_tail in Hd. subst d'. exists pre, rest. auto.
Qed.

Lemma search_doi_complete pre d rest :
  doi_shaped d -> doi_stop rest = true ->
  search doi_pattern (pre ++ d ++ rest) <> None.
Proof.
  intros Hsh Hst. unfold search. apply search_complete.
  apply doi_pattern_complete; assumption.
Qed.

(** The [doi] key of the result, read off the search. *)
Lemma doi_of_search reference :
  doi (extract_reference_info reference) =
  match search doi_pattern (list_ascii_of_string reference) with
  | Some m => Some (string_of_list_ascii (group0 m))
  | None => None
  end.
Proof.
  unfold extract_reference_info.
  destruct (search doi_pattern (list_ascii_of_string reference)) as [m|] eqn:E.
  - apply search_doi_sound in E as (_ & _ & _ & Hsh & _).
    apply doi_shaped_nonempty in Hsh.
    rewrite Hsh, andb_false_r. simpl. unfold field. rewrite Hsh. reflexivity.
  - simpl. destruct (negb _ && true); reflexivity.
Qed.

(** *** Blank input *)

Lemma space_not_P x : is_space x = true -> Ascii.eqb "P" x = false.
Proof.
  intros H. destruct (Ascii.eqb_spec "P"%char x) as [<-|]; [|reflexivity].
  vm_compute in H. discriminate.
Qed.

Lemma space_not_1 x : is_space x = true -> Ascii.eqb "1" x = false.
Proof.
  intros H. destruct (Ascii.eqb_spec "1"%char x) as [<-|]; [|reflexivity].
  vm_compute in H. discriminate.
Qed.

Lemma search_pmid_blank aft :
  forallb is_space aft = true -> forall bef, search_from pmid_pattern bef aft = None.
Proof.
  assert (Hhere : forall bef aft0, forallb is_space aft0 = true ->
            match_at pmid_pattern (Cur bef aft0) = None).
  { intros bef aft0 H. unfold match_at, pmid_pattern.
    cbn [run lit lit_chars lit_char list_ascii_of_string after before].
    destruct (at_wordb _); [|reflexivity].
    destruct aft0 as [|x aft0]; [reflexivity|]. simpl in H.
    apply andb_true_iff in H as [H _]. rewrite (space_not_P _ H). reflexivity. }
  induction aft as [|x aft IH]; intros H bef; cbn [search_from].
  - rewrite (Hhere bef [] H). reflexivity.
  - rewrite (Hhere bef (x :: aft) H). simpl in H.
    apply andb_true_iff in H as [_ H]. apply IH. exact H.
Qed.

Lemma search_doi_blank aft :
  forallb is_space aft = true -> forall bef, search_from doi_pattern bef aft = None.
Proof.
  assert (Hhere : forall bef aft0, forallb is_space aft0 = true ->
            match_at doi_pattern (Cur bef aft0) = None).
  { intros bef aft0 H. unfold match_at, doi_pattern.
    cbn [run lit lit_chars lit_char list_ascii_of_string after before].
    destruct aft0 as [|x aft0]; [reflexivity|]. simpl in H.
    apply andb_true_iff in H as [H _]. rewrite (space_not_1 _ H). reflexivity. }
  induction aft as [|x aft IH]; intros H bef; cbn [search_from].
  - rewrite (Hhere bef [] H). reflexivity.
  - rewrite (Hhere bef (x :: aft) H). simpl in H.
    apply andb_true_iff in H as [_ H]. apply IH. exact H.
Qed.

Lemma lstrip_blank l : forallb is_space l = true -> lstrip l = [].
Proof.
  induction l as [|x l IH]; simpl; [reflexivity|].
  intros H. apply andb_true_iff in H as [Hx Hl]. rewrite Hx. apply IH. exact Hl.
Qed.

Lemma skipn_blank n : forall l,
  forallb is_space l = true -> forallb is_space (skipn n l) = true.
Proof.
  induction n as [|n IH]; intros [|x l] H; simpl; auto.
  simpl in H. apply andb_true_iff in H as [_ H]. apply IH. exact H.
Qed.

Lemma strip_blank l : forallb is_space l = true -> strip l = [].
Proof. intros H. unfold strip. rewrite (lstrip_blank l H). reflexivity. Qed.

End ReferenceFacts.

Import PyStr Re ReferenceProcessor.

(** C2. The reference parser is a total function, so it returns on every
    string and never raises; its result has exactly one of the two shapes
    (a [doi] and/or [pmid] key and no [title] key, or a [title] key only);
    on empty or whitespace-only input it is the title-only result with the
    empty title. *)
Theorem extract_reference_info_two_shapes (reference : string) :
  (has_identifier (extract_reference_info reference)
     /\ ~ has_title_only (extract_reference_info reference)
   \/ has_title_only (extract_reference_info reference)
     /\ ~ has_identifier (extract_reference_info reference))
  /\ (blank reference = true ->
      extract_reference_info reference = RefInfo None None (Some "")).
Proof.
  split.
  - unfold extract_reference_info.
    set (pm := match search pmid_pattern _ with Some m => group1 m | None => None end).
    set (dm := match search doi_pattern _ with Some m => Some (group0 m) | None => None end).
    destruct (negb (truthy pm) && negb (truthy dm)) eqn:E.
    + right. split.
      * repeat split; simpl; eauto.
      * intros [_ H]. discriminate H.
    + left. split.
      * split; [|reflexivity]. simpl. unfold field.
        destruct (truthy dm) eqn:Ed.
        -- left. destruct dm; [eexists; reflexivity|discriminate].
        -- right. destruct (truthy pm) eqn:Ep; [|discriminate].
           destruct pm; [eexists; reflexivity|discriminate].
      * intros (_ & _ & [t H]). discriminate H.
  - intros Hb. unfold blank in Hb. unfold extract_reference_info, search.
    rewrite (ReferenceFacts.search_pmid_blank _ Hb), (ReferenceFacts.search_doi_blank _ Hb).
    simpl. unfold slice_from.
    rewrite ReferenceFacts.strip_blank by (apply ReferenceFacts.skipn_blank; exact Hb).
    reflexivity.
Qed.

Lemma extract_reference_info_two_shapes_witness :
  blank "  " = true /\ extract_reference_info "  " = RefInfo None None (Some "").
Proof.
  split; [reflexivity|].
  apply (proj2 (extract_reference_info_two_shapes "  ")). reflexivity.
Defined.

(** C3. On "Smith J (2020) PMID:12345 10.1000/xyz123" the parser returns
    the pmid "12345" and the doi "10.1000/xyz123": the PMID token is not
    taken into the DOI. *)
Theorem extract_reference_info_smith :
  pmid (extract_reference_info "Smith J (2020) PMID:12345 10.1000/xyz123") = Some "12345"
  /\ doi (extract_reference_info "Smith J (2020) PMID:12345 10.1000/xyz123")
     = Some "10.1000/xyz123".
Proof. split; vm_compute; reflexivity. Qed.

(** C4, as the code has it. The parser returns a [doi] key exactly when
    the reference contains a DOI-shaped substring that is immediately
    followed by the letters PMID or ends the string (or stands before a
    final newline), and the value of the key is then such a substring. *)
Theorem extract_reference_info_doi_iff (reference : string) :
  (is_Some (doi (extract_reference_info reference)) <->
   exists pre d rest,
     list_ascii_of_string reference = pre ++ d ++ rest
     /\ doi_shaped d /\ doi_stop rest = true)
  /\ (forall d, doi (extract_reference_info reference) = Some d ->
      exists pre rest,
        list_ascii_of_string reference = pre ++ list_ascii_of_string d ++ rest
        /\ doi_shaped (list_ascii_of_string d) /\ doi_stop rest = true).
Proof.
  rewrite ReferenceFacts.doi_of_search.
  destruct (search doi_pattern (list_ascii_of_string reference)) as [m|] eqn:E.
  - pose proof (ReferenceFacts.search_doi_sound _ _ E) as (pre & rest & Hs & Hsh & Hst).
    split.
    + split; [|eexists; reflexivity].
      intros _. exists pre, (group0 m), rest. auto.
    + intros d Hd. inversion Hd; subst d.
      rewrite list_ascii_of_string_of_list_ascii. exists pre, rest. auto.
  - split.
    + split.
      * intros [d Hd]. discriminate Hd.
      * intros (pre & d & rest & Hs & Hsh & Hst). exfalso.
        apply (ReferenceFacts.search_doi_complete pre d rest Hsh Hst).
        rewrite <- Hs. exact E.
    + intros d Hd. discriminate Hd.
Qed.

Lemma extract_reference_info_doi_iff_witness :
  is_Some (doi (extract_reference_info "Doe J (2019) 10.1000/xyz123")).
Proof.
  apply (proj2 (proj1 (extract_reference_info_doi_iff "Doe J (2019) 10.1000/xyz123"))).
  exists (list_ascii_of_string "Doe J (2019) "), (list_ascii_of_string "10.1000/xyz123"), [].
  split; [reflexivity|]. split; [|reflexivity].
  exists (list_ascii_of_string "1000"), (list_ascii_of_string "xyz123").
  repeat split; simpl; lia.
Defined.

(** C4 as stated fails: a DOI followed by a space and further prose is in
    the reference, and the result has no [doi] key. *)
Lemma doi_before_prose_not_captured :
  (exists pre d rest,
     list_ascii_of_string "see 10.1000/xyz123 for details" = pre ++ d ++ rest
     /\ doi_shaped d)
  /\ extract_reference_info "see 10.1000/xyz123 for details"
     = RefInfo None None (Some "see 10.1000/xyz123 for details").
Proof.
  split; [|vm_compute; reflexivity].
  exists (list_ascii_of_string "see "), (list_ascii_of_string "10.1000/xyz123"),
    (list_ascii_of_string " for details").
  split; [reflexivity|].
  exists (list_ascii_of_string "1000"), (list_ascii_of_string "xyz123").
  repeat split; simpl; lia.
Qed.

(** ** The DOI matcher *)

Module MatcherFacts.
Import PyStr DOIMatcher.

Lemma match_entry_app doi_set entry_doi refs : forall results,
  match_entry doi_set results entry_doi refs =
  results ++ map (pair entry_doi) (List.filter (in_corpus doi_set) refs).
Proof.
  unfold match_entry, in_corpus.
  induction refs as [|r refs IH]; intros results; simpl.
  - rewrite app_nil_r. reflexivity.
  - rewrite IH. destruct (bool_decide (r ∈ doi_set)); simpl;
      [rewrite <- app_assoc|]; reflexivity.
Qed.

Lemma match_dois_flat_map doi_set json_data :
  match_dois doi_set json_data = flat_map (edges_of doi_set) json_data.
Proof.
  unfold match_dois.
  enough (H : forall acc,
    fold_left (fun results item =>
      match_entry doi_set results (fst item) (get_referenced_dois (snd item)))
      json_data acc = acc ++ flat_map (edges_of doi_set) json_data)
    by (rewrite H; reflexivity).
  induction json_data as [|item rest IH]; intros acc; simpl.
  - rewrite app_nil_r. reflexivity.
  - rewrite IH, match_entry_app, <- app_assoc. reflexivity.
Qed.

Lemma count_filter doi_set r refs :
  count_occ string_dec (List.filter (in_corpus doi_set) refs) r =
  if in_corpus doi_set r then count_occ string_dec refs r else 0.
Proof.
  induction refs as [|x refs IH]; simpl.
  - destruct (in_corpus doi_set r); reflexivity.
  - destruct (in_corpus doi_set x) eqn:Ex; simpl;
      destruct (string_dec x r) as [->|Hne]; rewrite IH; try reflexivity.
    + rewrite Ex. reflexivity.
    + rewrite Ex. reflexivity.
Qed.

Lemma count_pairs (c c' r : string) (l : list string) :
  count_occ edge_dec (map (pair c') l) (c, r) =
  if string_dec c' c then count_occ string_dec l r else 0.
Proof.
  induction l as [|x l IH]; simpl.
  - destruct (string_dec c' c); reflexivity.
  - destruct (edge_dec (c', x) (c, r)) as [E|E].
    + inversion E; subst. rewrite IH.
      destruct (string_dec c c); [|congruence].
      destruct (string_dec r r); [reflexivity|congruence].
    + rewrite IH. destruct (string_dec c' c) as [->|]; [|reflexivity].
      destruct (string_dec x r) as [->|]; [congruence|reflexivity].
Qed.

Lemma count_absent_key doi_set c r json_data :
  ~ In c (map fst json_data) ->
  count_occ edge_dec (flat_map (edges_of doi_set) json_data) (c, r) = 0.
Proof.
  induction json_data as [|item rest IH]; intros Hc; simpl; [reflexivity|].
  rewrite count_occ_app, IH by (intros H; apply Hc; right; exact H).
  unfold edges_of. rewrite count_pairs.
  destruct (string_dec (fst item) c); [|reflexivity].
  exfalso. apply Hc. left. assumption.
Qed.

(** *** Deleting "doi:" *)

Lemma delete_free old l : occurs old l = false -> delete_all old l = l.
Proof.
  unfold delete_all. induction l as [|c l IH]; simpl; [reflexivity|].
  intros H. apply orb_false_iff in H as [Hs Ho].
  change (match old with
          | [] => true
          | a :: p' => Ascii.eqb a c && starts_with p' l
          end) with (starts_with old (c :: l)) in Hs.
  change (match old with
          | [] => true
          | a :: p' => Ascii.eqb a c && starts_with p' l
          end) with (starts_with old (c :: l)).
  rewrite Hs, IH by exact Ho. reflexivity.
Qed.

Lemma starts_with_mono p : forall l x,
  starts_with p l = true -> starts_with p (l ++ x) = true.
Proof.
  induction p as [|a p IH]; intros [|b l] x H; simpl in *; try discriminate; auto.
  apply andb_true_iff in H as [-> H]. simpl. apply IH. exact H.
Qed.

(** "doi:" does not overlap itself: an occurrence that starts inside a
    part lies inside that part. *)
Lemma doi_no_overlap q rest :
  q <> [] -> starts_with doi_prefix (q ++ doi_prefix ++ rest) = true ->
  starts_with doi_prefix q = true.
Proof.
  intros Hq H. apply ReferenceFacts.starts_with_app in H as [t Ht].
  apply ReferenceFacts.starts_with_app.
  destruct q as [|a [|b [|c [|d q]]]]; [congruence| | | |];
    simpl in Ht; inversion Ht; subst.
  exists q. reflexivity.
Qed.

Lemma delete_piece p : forall rest,
  doi_free p ->
  delete_all doi_prefix (p ++ doi_prefix ++ rest) = p ++ delete_all doi_prefix rest.
Proof.
  unfold doi_free, delete_all.
  induction p as [|c p IH]; intros rest H.
  - reflexivity.
  - simpl in H. apply orb_false_iff in H as [Hs Ho].
    assert (Hn : starts_with doi_prefix ((c :: p) ++ doi_prefix ++ rest) = false).
    { destruct (starts_with doi_prefix ((c :: p) ++ doi_prefix ++ rest)) eqn:E;
        [|reflexivity].
      apply doi_no_overlap in E; [|discriminate].
      simpl in E. rewrite E in Hs. discriminate. }
    change ((c :: p) ++ doi_prefix ++ rest) with (c :: (p ++ doi_prefix ++ rest)) in *.
    cbn [delete_all_aux]. rewrite Hn, IH by exact Ho. reflexivity.
Qed.

Lemma delete_join pieces :
  Forall doi_free pieces ->
  delete_all doi_prefix (join doi_prefix pieces) = concat pieces.
Proof.
  induction pieces as [|p [|q rest] IH]; intros H.
  - reflexivity.
  - inversion H; subst. simpl. rewrite app_nil_r. apply delete_free. assumption.
  - inversion H; subst.
    change (join doi_prefix (p :: q :: rest))
      with (p ++ doi_prefix ++ join doi_prefix (q :: rest)).
    rewrite delete_piece by assumption. rewrite IH by assumption. reflexivity.
Qed.

Lemma first_occurrence old l :
  old <> [] -> occurs old l = true ->
  exists p rest, l = p ++ old ++ rest /\ occurs old p = false.
Proof.
  intros Hold. induction l as [|c l IH]; intros H.
  - destruct old; [congruence|discriminate].
  - destruct (starts_with old (c :: l)) eqn:Es.
    + apply ReferenceFacts.starts_with_app in Es as [t Ht].
      exists [], t. split; [exact Ht|]. destruct old; [congruence|reflexivity].
    + assert (Ho : occurs old l = true).
      { change (occurs old (c :: l)) with (starts_with old (c :: l) || occurs old l) in H.
        rewrite Es in H. exact H. }
      destruct (IH Ho) as (p & rest & -> & Hp).
      exists (c :: p), rest. split; [reflexivity|].
      assert (Hs : starts_with old (c :: p) = false).
      { destruct (starts_with old (c :: p)) eqn:E; [|reflexivity].
        apply starts_with_mono with (x := old ++ rest) in E.
        change ((c :: p) ++ old ++ rest) with (c :: p ++ old ++ rest) in E.
        congruence. }
      change (occurs old (c :: p)) with (starts_with old (c :: p) || occurs old p).
      rewrite Hs, Hp. reflexivity.
Qed.

(** Every string is its "doi:"-free parts joined by "doi:". *)
Lemma split_exists l :
  exists pieces, l = join doi_prefix pieces /\ Forall doi_free pieces.
Proof.
  enough (H : forall n l, List.length l <= n ->
            exists pieces, pieces <> [] /\ l = join doi_prefix pieces
                           /\ Forall doi_free pieces).
  { destruct (H (List.length l) l (le_n _)) as (ps & _ & Hj & Hf). eauto. }
  clear l. induction n as [|n IH]; intros l Hn.
  - destruct l; [|simpl in Hn; lia].
    exists [[]]. repeat split; [discriminate|]. repeat constructor.
  - destruct (occurs doi_prefix l) eqn:E.
    + apply first_occurrence in E as (p & rest & -> & Hp); [|discriminate].
      destruct (IH rest) as (ps & Hne & -> & Hf).
      { rewrite !length_app in Hn. simpl in Hn. lia. }
      exists (p :: ps). split; [discriminate|]. split; [|constructor; assumption].
      destruct ps; [congruence|reflexivity].
    + exists [l]. repeat split; [discriminate|]. repeat constructor. exact E.
Qed.

Lemma elem_of_load_csv ids r :
  r ∈ load_csv ids <-> exists s, In (Some s) ids /\ clean_id s = r.
Proof.
  unfold load_csv. rewrite elem_of_list_to_set, list_elem_of_omap. split.
  - intros (cell & Hc & Hr). destruct cell as [s|]; [|discriminate].
    simpl in Hr. inversion Hr; subst. exists s. split; [|reflexivity].
    apply list_elem_of_In. exact Hc.
  - intros (s & Hs & <-). exists (Some s). split; [|reflexivity].
    apply list_elem_of_In. exact Hs.
Qed.

End MatcherFacts.

Import DOIMatcher.

(** C1, as the code has it. The matcher emits the edge (citing, cited)
    exactly when cited is in the referenced list of the entry of citing and
    is a member of the corpus. The output is not deduplicated: with the
    keys of the JSON object distinct, a pair occurs once for each
    occurrence of the referenced DOI in the list of its citing entry; so
    the output has no repeated pair when no list has a repeated DOI. *)
Theorem match_dois_edges (doi_set : gset string) (json_data : list (string * entry)) :
  (forall citing cited,
     In (citing, cited) (match_dois doi_set json_data) <->
     exists e, In (citing, e) json_data /\ In cited (get_referenced_dois e)
               /\ cited ∈ doi_set)
  /\ (List.NoDup (map fst json_data) ->
      (forall citing e cited, In (citing, e) json_data ->
         count_occ edge_dec (match_dois doi_set json_data) (citing, cited) =
         if in_corpus doi_set cited
         then count_occ string_dec (get_referenced_dois e) cited else 0)
      /\ ((forall citing e, In (citing, e) json_data -> List.NoDup (get_referenced_dois e)) ->
          List.NoDup (match_dois doi_set json_data))).
Proof.
  rewrite MatcherFacts.match_dois_flat_map.
  assert (Hcount : List.NoDup (map fst json_data) ->
    forall citing e cited, In (citing, e) json_data ->
      count_occ edge_dec (flat_map (edges_of doi_set) json_data) (citing, cited) =
      if in_corpus doi_set cited
      then count_occ string_dec (get_referenced_dois e) cited else 0).
  { intros Hnd citing e cited Hin.
    induction json_data as [|[c' e'] rest IH]; [destruct Hin|].
    simpl. rewrite count_occ_app. simpl in Hnd.
    inversion Hnd as [|? ? Hni Hnd']; subst.
    destruct Hin as [Heq|Hin].
    - inversion Heq; subst.
      rewrite MatcherFacts.count_absent_key by assumption.
      unfold edges_of. simpl.
      rewrite MatcherFacts.count_pairs, MatcherFacts.count_filter.
      destruct (string_dec citing citing); [|congruence]. apply Nat.add_0_r.
    - rewrite IH by assumption. unfold edges_of at 1. simpl.
      rewrite MatcherFacts.count_pairs.
      destruct (string_dec c' citing) as [->|]; [|reflexivity].
      exfalso. apply Hni. apply in_map_iff. exists (citing, e). auto. }
  split; [|intros Hnd; split; [apply Hcount; exact Hnd|]].
  - intros citing cited. rewrite in_flat_map. split.
    + intros ([c' e] & Hin & Hed). unfold edges_of in Hed. simpl in Hed.
      apply in_map_iff in Hed as (r & Heq & Hr). inversion Heq; subst.
      apply filter_In in Hr as [Hr Hc]. exists e. repeat split; auto.
      unfold in_corpus in Hc. apply bool_decide_eq_true in Hc. exact Hc.
    + intros (e & Hin & Hr & Hc). exists (citing, e). split; [exact Hin|].
      unfold edges_of. simpl. apply in_map. apply filter_In. split; [exact Hr|].
      unfold in_corpus. apply bool_decide_eq_true. exact Hc.
  - intros Hrefs. apply (List.NoDup_count_occ edge_dec). intros [citing cited].
    destruct (in_dec string_dec citing (map fst json_data)) as [Hk|Hk].
    + apply in_map_iff in Hk as ([c e] & Hc & Hin). simpl in Hc. subst c.
      rewrite (Hcount Hnd citing e cited Hin).
      destruct (in_corpus doi_set cited); [|lia].
      apply (List.NoDup_count_occ string_dec). apply (Hrefs citing e Hin).
    + rewrite MatcherFacts.count_absent_key by assumption. lia.
Qed.

Lemma match_dois_edges_witness :
  List.NoDup (map fst [("10.1000/c", Entry "10.1000/c" (Some ["10.1000/a"; "10.1000/z"]))])
  /\ count_occ edge_dec
       (match_dois {["10.1000/a"; "10.1000/b"]}
          [("10.1000/c", Entry "10.1000/c" (Some ["10.1000/a"; "10.1000/z"]))])
       ("10.1000/c", "10.1000/a")
     = (if in_corpus {["10.1000/a"; "10.1000/b"]} "10.1000/a"
        then count_occ string_dec ["10.1000/a"; "10.1000/z"] "10.1000/a" else 0).
Proof.
  assert (Hnd : List.NoDup (map fst
            [("10.1000/c", Entry "10.1000/c" (Some ["10.1000/a"; "10.1000/z"]))])).
  { simpl. constructor; [intros H; inversion H|constructor]. }
  split; [exact Hnd|].
  apply (proj1 (proj2 (match_dois_edges {["10.1000/a"; "10.1000/b"]}
           [("10.1000/c", Entry "10.1000/c" (Some ["10.1000/a"; "10.1000/z"]))]) Hnd)
           "10.1000/c" (Entry "10.1000/c" (Some ["10.1000/a"; "10.1000/z"])) "10.1000/a").
  left. reflexivity.
Defined.

(** C1 as stated fails: a referenced DOI listed twice under one citing
    identifier is emitted twice. *)
Lemma match_dois_keeps_duplicates :
  match_dois {["10.1000/a"]}
    [("10.1000/c", Entry "10.1000/c" (Some ["10.1000/a"; "10.1000/a"]))]
  = [("10.1000/c", "10.1000/a"); ("10.1000/c", "10.1000/a")]
  /\ ~ List.NoDup (match_dois {["10.1000/a"]}
               [("10.1000/c", Entry "10.1000/c" (Some ["10.1000/a"; "10.1000/a"]))]).
Proof.
  assert (E : match_dois {["10.1000/a"]}
                [("10.1000/c", Entry "10.1000/c" (Some ["10.1000/a"; "10.1000/a"]))]
              = [("10.1000/c", "10.1000/a"); ("10.1000/c", "10.1000/a")])
    by (vm_compute; reflexivity).
  split; [exact E|]. rewrite E. intros H.
  inversion H as [|? ? Hni _]; subst. apply Hni. left. reflexivity.
Qed.

(** C9. The corpus holds exactly the cleaned ids, and the cleaned form of
    an id is the id with every occurrence of "doi:" removed: cut the id at
    its occurrences of "doi:", and what is stored is the parts put back
    together without them. An id whose suffix contains "doi:" therefore
    loses more than a leading prefix. *)
Theorem load_csv_deletes_every_doi_prefix :
  (forall (ids : list (option string)) (x : string),
     x ∈ load_csv ids <->
     exists s pieces,
       In (Some s) ids
       /\ list_ascii_of_string s = PyStr.join doi_prefix pieces
       /\ Forall doi_free pieces
       /\ x = string_of_list_ascii (concat pieces))
  /\ load_csv [Some "doi:10.1000/adoi:b"] = {["10.1000/ab"]}.
Proof.
  split; [|vm_compute; reflexivity].
  intros ids x. rewrite MatcherFacts.elem_of_load_csv. split.
  - intros (s & Hin & <-).
    destruct (MatcherFacts.split_exists (list_ascii_of_string s)) as (pieces & Hj & Hf).
    exists s, pieces. repeat split; auto.
    unfold clean_id. rewrite Hj, MatcherFacts.delete_join by exact Hf. reflexivity.
  - intros (s & pieces & Hin & Hj & Hf & ->). exists s. split; [exact Hin|].
    unfold clean_id. rewrite Hj, MatcherFacts.delete_join by exact Hf. reflexivity.
Qed.

Lemma load_csv_deletes_every_doi_prefix_witness :
  "10.1000/ab" ∈ load_csv [None; Some "doi:10.1000/adoi:b"].
Proof.
  apply (proj2 (proj1 load_csv_deletes_every_doi_prefix
                  [None; Some "doi:10.1000/adoi:b"] "10.1000/ab")).
  exists "doi:10.1000/adoi:b",
    [[]; list_ascii_of_string "10.1000/a"; list_ascii_of_string "b"].
  split; [right; left; reflexivity|].
  split; [reflexivity|].
  split; [repeat constructor|reflexivity].
Defined.

(** C7, as the code has it. The only cleaning of identifiers is the
    deletion of the lower-case "doi:": an id without "doi:" is left as it
    is, a "doi:" in front of such an id is stripped, and cleaning twice is
    cleaning once whenever the cleaned id has no "doi:" left. Nothing is
    lower-cased and no resolver host is stripped, so "DOI:10.1000/ABC" and
    "https://doi.org/10.1000/abc" are stored unchanged. A string is in the
    corpus exactly when it is equal to the cleaned form of some id. *)
Theorem clean_id_is_prefix_deletion_only :
  (forall x, PyStr.occurs doi_prefix (list_ascii_of_string (clean_id x)) = false ->
             clean_id (clean_id x) = clean_id x)
  /\ (forall x, PyStr.occurs doi_prefix (list_ascii_of_string x) = false ->
                clean_id x = x /\ clean_id (String.append "doi:" x) = x)
  /\ clean_id "DOI:10.1000/ABC" = "DOI:10.1000/ABC"
  /\ clean_id "https://doi.org/10.1000/abc" = "https://doi.org/10.1000/abc"
  /\ (forall ids r, r ∈ load_csv ids <-> exists s, In (Some s) ids /\ clean_id s = r).
Proof.
  assert (Hid : forall x, PyStr.occurs doi_prefix (list_ascii_of_string x) = false ->
                          clean_id x = x).
  { intros x H. unfold clean_id. rewrite MatcherFacts.delete_free by exact H.
    apply string_of_list_ascii_of_string. }
  split; [intros x H; apply Hid; exact H|].
  split; [|split; [vm_compute; reflexivity|split; [vm_compute; reflexivity|]]].
  - intros x H. split; [apply Hid; exact H|].
    unfold clean_id.
    change (list_ascii_of_string (String.append "doi:" x))
      with ([] ++ doi_prefix ++ list_ascii_of_string x).
    rewrite MatcherFacts.delete_piece by reflexivity.
    rewrite MatcherFacts.delete_free by exact H.
    apply string_of_list_ascii_of_string.
  - intros ids r. apply MatcherFacts.elem_of_load_csv.
Qed.

Lemma clean_id_is_prefix_deletion_only_witness :
  clean_id "10.1000/abc" = "10.1000/abc"
  /\ clean_id (String.append "doi:" "10.1000/abc") = "10.1000/abc".
Proof.
  apply (proj1 (proj2 clean_id_is_prefix_deletion_only) "10.1000/abc").
  reflexivity.
Defined.

(** C7 as stated fails: the cleaning is not idempotent, and it keeps the
    two spellings of the specification's example apart. *)
Lemma clean_id_not_canonical :
  clean_id (clean_id "ddoi:oi:10.1000/abc") <> clean_id "ddoi:oi:10.1000/abc"
  /\ clean_id "DOI:10.1000/ABC" <> clean_id "https://doi.org/10.1000/abc".
Proof. split; vm_compute; discriminate. Qed.


(** ** Fetching and storing metadata *)

Module FetchFacts.
Import Py Loops CrossRefProcessor SPARQLCitationExtractor.
Local Open Scope py_scope.

Lemma bind_assoc {A B C} (m : M A) (f : A -> M B) (g : B -> M C) :
  bind (bind m f) g = bind m (fun x => bind (f x) g).
Proof.
  destruct m as [out [a|e]]; simpl; [|reflexivity].
  destruct (f a) as [out1 [b|e]]; simpl; [|reflexivity].
  destruct (g b) as [out2 r]. rewrite app_assoc. reflexivity.
Qed.

Lemma bind_ret_r {A} (m : M A) : bind m ret = m.
Proof. destruct m as [out [a|e]]; simpl; [rewrite app_nil_r|]; reflexivity. Qed.

Lemma bind_ext {A B} (m : M A) (f g : A -> M B) :
  (forall x, f x = g x) -> bind m f = bind m g.
Proof. intros H. destruct m as [out [a|e]]; simpl; [rewrite H|]; reflexivity. Qed.

Lemma for_each_app {A S} (body : S -> A -> M S) (l1 l2 : list A) : forall s,
  for_each (l1 ++ l2) body s = bind (for_each l1 body s) (for_each l2 body).
Proof.
  induction l1 as [|x l1 IH]; intros s; simpl.
  - destruct (for_each l2 body s) as [out r]. reflexivity.
  - rewrite bind_assoc. apply bind_ext. intros s'. apply IH.
Qed.

Lemma outcome_bind_ok {A B} (m : M A) (f : A -> M B) a :
  outcome m = Ok a -> outcome (bind m f) = outcome (f a).
Proof.
  destruct m as [out r]. simpl. intros ->. simpl.
  destruct (f a) as [out' r']. reflexivity.
Qed.

Section WithFormat.
Variable py_format : value -> string.

(** A connection error or a timeout is caught inside the call: one line is
    printed and the call returns the empty dictionary. *)
Lemma get_crossref_data_no_response doi kind :
  get_crossref_data py_format doi (NoResponse kind)
  = ([ErrorLine doi (RequestException kind)], Ok None).
Proof. reflexivity. Qed.

(** So is an error status. *)
Lemma get_crossref_data_error_status doi status body :
  (400 <= status < 600)%Z ->
  get_crossref_data py_format doi (Response status body)
  = ([ErrorLine doi (RequestException "HTTPError")], Ok None).
Proof.
  intros [Hlo Hhi]. unfold get_crossref_data, raise_for_status. simpl.
  apply Z.leb_le in Hlo. apply Z.ltb_lt in Hhi. rewrite Hlo, Hhi. reflexivity.
Qed.

(** After such a failure the loop goes on with the next row. *)
Lemma process_data_skips_failed_fetch doi net e rest :
  get_crossref_data py_format doi net = ([ErrorLine doi e], Ok None) ->
  process_data py_format ((doi, net) :: rest)
  = (ErrorLine doi e :: output (process_data py_format rest),
     outcome (process_data py_format rest)).
Proof.
  intros H. unfold process_data. simpl. rewrite H. simpl.
  destruct (for_each rest _ _) as [out r]. reflexivity.
Qed.

End WithFormat.

(** The SPARQL queries catch every exception raised inside the call. *)
Lemma query_sparql_citing_never_raises url net :
  exists v, outcome (query_sparql_citing url net) = Ok v.
Proof.
  unfold query_sparql_citing. destruct net as [v|e]; simpl; [|eexists; reflexivity].
  destruct (getitem v "results") as [out [r|e]] eqn:E1; simpl.
  - destruct v; simpl in E1; try (inversion E1; fail).
    destruct (lookup "results" d); inversion E1; subst.
    destruct (getitem r "bindings") as [out2 [b|e]] eqn:E2; simpl;
      eexists; reflexivity.
  - eexists. reflexivity.
Qed.

Lemma query_sparql_citing_failure url e :
  query_sparql_citing url (Raise e) = ([ErrorLine url e], Ok VNone).
Proof. reflexivity. Qed.

(** A binding that is not an object passes the query and raises in the
    loop of the caller. *)
Example extract_citing_data_malformed_binding :
  extract_citing_data
    [("https://example.org/j1",
      Ok (VDict [("results", VDict [("bindings", VList [VInt 5])])]));
     ("https://example.org/j2", Ok (VDict [("results", VDict [("bindings", VList [])])]))]
  = ([], Raise AttributeError).
Proof. reflexivity. Qed.

End FetchFacts.

Import Py CrossRefProcessor.

(** C5, as the code has it. Nothing is merged: a successful fetch adds one
    CSV row made from that fetch alone, with the values as they came, empty
    ones included; the rows already stored stay as they are, also a row of
    the same identifier; the entry of the identifier in [references_data]
    is replaced by the new one. A fetch that fails at the request changes
    nothing. *)
Theorem process_data_appends_without_merging
    (py_format : value -> string) (rows : list (string * http))
    (doi : string) (net : http) (references_data : gmap string ref_entry)
    (csv_rows : list csv_row) :
  outcome (process_data py_format rows) = Ok (references_data, csv_rows) ->
  (forall d,
     outcome (get_crossref_data py_format doi net) = Ok (Some d) ->
     outcome (process_data py_format (rows ++ [(doi, net)]))
     = Ok (<[doi := RefEntry doi (cd_references d)]> references_data,
           csv_rows ++ [make_csv_row doi d])
     /\ title (make_csv_row doi d) = cd_title d
     /\ publisher (make_csv_row doi d) = cd_publisher d)
  /\ (outcome (get_crossref_data py_format doi net) = Ok None ->
      outcome (process_data py_format (rows ++ [(doi, net)]))
      = Ok (references_data, csv_rows)).
Proof.
  intros Hrows. unfold process_data in *. rewrite FetchFacts.for_each_app.
  rewrite (FetchFacts.outcome_bind_ok _ _ _ Hrows). simpl.
  split.
  - intros d Hd. split; [|split; reflexivity].
    destruct (get_crossref_data py_format doi net) as [out r]. simpl in Hd. subst r.
    simpl. reflexivity.
  - intros Hd.
    destruct (get_crossref_data py_format doi net) as [out r]. simpl in Hd. subst r.
    simpl. reflexivity.
Qed.

Lemma process_data_appends_without_merging_witness :
  outcome (process_data (fun _ => "")
    [("10.1000/d", Response 200
        (VDict [("message", VDict [("title", VList [VStr ""]); ("publisher", VStr "P")])]));
     ("10.1000/d", Response 200
        (VDict [("message", VDict [("title", VList [VStr "T"]); ("publisher", VStr "")])]))])
  = Ok (<["10.1000/d" := RefEntry "10.1000/d" (VList [])]>
          {["10.1000/d" := RefEntry "10.1000/d" (VList [])]},
        [make_csv_row "10.1000/d"
           (CrossrefData "10.1000/d" (VStr "") (VStr "P") (VStr "") (VStr "") "" (VList []))]
        ++ [make_csv_row "10.1000/d"
              (CrossrefData "10.1000/d" (VStr "T") (VStr "") (VStr "") (VStr "") ""
                 (VList []))]).
Proof.
  assert (H1 : outcome (process_data (fun _ => "")
    [("10.1000/d", Response 200
        (VDict [("message", VDict [("title", VList [VStr ""]); ("publisher", VStr "P")])]))])
    = Ok (({["10.1000/d" := RefEntry "10.1000/d" (VList [])]} : gmap string ref_entry),
          [make_csv_row "10.1000/d"
             (CrossrefData "10.1000/d" (VStr "") (VStr "P") (VStr "") (VStr "") ""
                (VList []))]))
    by (vm_compute; reflexivity).
  apply (proj1 (process_data_appends_without_merging _ _ _ _ _ _ H1)
           (CrossrefData "10.1000/d" (VStr "T") (VStr "") (VStr "") (VStr "") "" (VList []))).
  vm_compute. reflexivity.
Defined.

(** C5 as stated fails: after the two fetches of the example the stored
    rows are ("", "P") and ("T", ""); whatever the formatting of author
    names, no stored row is ("T", "P"). *)
Lemma process_data_does_not_merge :
  ~ exists (py_format : value -> string) references_data csv_rows row,
      outcome (process_data py_format
        [("10.1000/d", Response 200
            (VDict [("message",
                     VDict [("title", VList [VStr ""]); ("publisher", VStr "P")])]));
         ("10.1000/d", Response 200
            (VDict [("message",
                     VDict [("title", VList [VStr "T"]); ("publisher", VStr "")])]))])
      = Ok (references_data, csv_rows)
      /\ In row csv_rows
      /\ title row = VStr "T" /\ publisher row = VStr "P".
Proof.
  intros (py_format & references_data & csv_rows & row & Hrun & Hin & Ht & Hp).
  inversion Hrun; subst; clear Hrun.
  destruct Hin as [<-|[<-|[]]]; simpl in *; discriminate.
Qed.

(** C6 fails on the Crossref fetch: a 200 response whose JSON has no
    usable "message" raises AttributeError inside [get_crossref_data],
    which catches [requests.RequestException] only; the exception leaves
    [process_data], and the second DOI of the batch is never fetched. *)
Theorem process_data_aborts_on_malformed_payload (py_format : value -> string) :
  get_crossref_data py_format "10.1000/a" (Response 200 (VDict [("message", VNone)]))
  = ([], Raise AttributeError)
  /\ process_data py_format
       [("10.1000/a", Response 200 (VDict [("message", VNone)]));
        ("10.1000/b", Response 200 (VDict [("message", VDict [])]))]
     = ([], Raise AttributeError).
Proof. split; reflexivity. Qed.


(** ** The outer merge *)

Module MergeFacts.
Import SPARQLCitationExtractor.

Lemma in_insert_sorted k x l : In k (insert_sorted x l) <-> k = x \/ In k l.
Proof.
  induction l as [|y l IH]; simpl.
  - split; intros [H|H]; auto.
  - destruct (String.leb x y); simpl; [split; intros [H|H]; auto|].
    rewrite IH. split; intros H; intuition auto.
Qed.

Lemma in_sorted k l : In k (fold_right insert_sorted [] l) <-> In k l.
Proof.
  induction l as [|y l IH]; simpl; [reflexivity|].
  rewrite in_insert_sorted, IH. split; intros [H|H]; auto.
Qed.

Lemma in_union_keys k l r : In k (union_keys l r) <-> In k l \/ In k r.
Proof.
  unfold union_keys.
  rewrite in_sorted, <- list_elem_of_In, elem_of_remove_dups, list_elem_of_In.
  apply in_app_iff.
Qed.

Lemma in_rows_of row k t : In row (rows_of k t) <-> In row t /\ journal row = k.
Proof.
  unfold rows_of. rewrite filter_In, bool_decide_eq_true. reflexivity.
Qed.

Lemma no_rows k t : (forall row, In row t -> journal row <> k) -> rows_of k t = [].
Proof.
  intros H. destruct (rows_of k t) as [|row rs] eqn:E; [reflexivity|].
  assert (Hin : In row (rows_of k t)) by (rewrite E; left; reflexivity).
  apply in_rows_of in Hin as [Hin Hk]. exfalso. exact (H row Hin Hk).
Qed.

Lemma in_merge_key row ls rs :
  In row (merge_key ls rs) <->
  (exists l r, In l ls /\ In r rs /\ row = both l r)
  \/ (rs = [] /\ exists l, In l ls /\ row = left_only l)
  \/ (ls = [] /\ exists r, In r rs /\ row = right_only r).
Proof.
  unfold merge_key. destruct ls as [|l0 ls].
  - rewrite in_map_iff. split.
    + intros (r & <- & Hr). right. right. split; [reflexivity|]. eauto.
    + intros [(l & r & [] & _)|[(_ & l & [] & _)|(_ & r & Hr & ->)]]. eauto.
  - destruct rs as [|r0 rs].
    + rewrite in_map_iff. split.
      * intros (l & <- & Hl). right. left. split; [reflexivity|]. eauto.
      * intros [(l & r & _ & [] & _)|[(_ & l & Hl & ->)|(Hn & _)]];
          [eauto|discriminate].
    + rewrite in_flat_map. split.
      * intros (l & Hl & Hrow). apply in_map_iff in Hrow as (r & <- & Hr).
        left. eauto.
      * intros [(l & r & Hl & Hr & ->)|[(Hn & _)|(Hn & _)]]; try discriminate.
        exists l. split; [exact Hl|]. apply in_map. exact Hr.
Qed.

End MergeFacts.

Import SPARQLCitationExtractor.

(** C8. The merge is a full outer join on [journal]: its rows are exactly
    (a) for each citing row and each cited row with the same key, the row
    carrying the columns of both; (b) for each citing row whose key is in
    no cited row, that row with the cited columns empty; (c) for each cited
    row whose key is in no citing row, that row with the citing columns
    empty. So no row of either table is dropped, and one citing row and one
    cited row with the same key give exactly one merged row. *)
Theorem merge_is_full_outer_join :
  (forall (citing_df cited_df : list side_row) (row : merged_row),
     In row (merge_citing_and_cited_data citing_df cited_df) <->
     (exists l r, In l citing_df /\ In r cited_df /\ journal l = journal r
                  /\ row = both l r)
     \/ (exists l, In l citing_df
                   /\ (forall r, In r cited_df -> journal r <> journal l)
                   /\ row = left_only l)
     \/ (exists r, In r cited_df
                   /\ (forall l, In l citing_df -> journal l <> journal r)
                   /\ row = right_only r))
  /\ (forall j c1 e1 c2 e2,
        merge_citing_and_cited_data [SideRow j c1 e1] [SideRow j c2 e2]
        = [MergedRow j c1 e1 c2 e2]).
Proof.
  split.
  - intros citing_df cited_df row. unfold merge_citing_and_cited_data.
    rewrite in_flat_map. split.
    + intros (k & Hk & Hrow). apply MergeFacts.in_merge_key in Hrow.
      destruct Hrow as [(l & r & Hl & Hr & ->)|[(Hn & l & Hl & ->)|(Hn & r & Hr & ->)]].
      * apply MergeFacts.in_rows_of in Hl as [Hl Hkl].
        apply MergeFacts.in_rows_of in Hr as [Hr Hkr].
        left. exists l, r. repeat split; auto. congruence.
      * apply MergeFacts.in_rows_of in Hl as [Hl Hkl].
        right. left. exists l. repeat split; auto.
        intros r Hr Hjr.
        assert (Hin : In r (rows_of k cited_df))
          by (apply MergeFacts.in_rows_of; split; [exact Hr|congruence]).
        rewrite Hn in Hin. destruct Hin.
      * apply MergeFacts.in_rows_of in Hr as [Hr Hkr].
        right. right. exists r. repeat split; auto.
        intros l Hl Hjl.
        assert (Hin : In l (rows_of k citing_df))
          by (apply MergeFacts.in_rows_of; split; [exact Hl|congruence]).
        rewrite Hn in Hin. destruct Hin.
    + intros [(l & r & Hl & Hr & Hj & ->)|[(l & Hl & Hno & ->)|(r & Hr & Hno & ->)]].
      * exists (journal l). split.
        -- apply MergeFacts.in_union_keys. left. apply in_map. exact Hl.
        -- apply MergeFacts.in_merge_key. left. exists l, r.
           rewrite !MergeFacts.in_rows_of. auto.
      * exists (journal l). split.
        -- apply MergeFacts.in_union_keys. left. apply in_map. exact Hl.
        -- apply MergeFacts.in_merge_key. right. left.
           split; [apply MergeFacts.no_rows; exact Hno|].
           exists l. rewrite MergeFacts.in_rows_of. auto.
      * exists (journal r). split.
        -- apply MergeFacts.in_union_keys. right. apply in_map. exact Hr.
        -- apply MergeFacts.in_merge_key. right. right.
           split; [apply MergeFacts.no_rows; exact Hno|].
           exists r. rewrite MergeFacts.in_rows_of. auto.
  - intros j c1 e1 c2 e2.
    unfold merge_citing_and_cited_data, union_keys, rows_of. simpl.
    destruct (decide_rel elem_of j [j]) as [_|Hn];
      [|exfalso; apply Hn; apply list_elem_of_In; left; reflexivity].
    simpl. rewrite bool_decide_eq_true_2 by reflexivity. reflexivity.
Qed.

Lemma merge_is_full_outer_join_witness :
  In (left_only (SideRow "j2" (Some "c1") (Some "e1")))
     (merge_citing_and_cited_data
        [SideRow "j2" (Some "c1") (Some "e1")] [SideRow "j1" (Some "c2") (Some "e2")]).
Proof.
  apply (proj2 (proj1 merge_is_full_outer_join
                  [SideRow "j2" (Some "c1") (Some "e1")]
                  [SideRow "j1" (Some "c2") (Some "e2")] _)).
  right. left. exists (SideRow "j2" (Some "c1") (Some "e1")).
  split; [left; reflexivity|]. split; [|reflexivity].
  intros r [<-|[]]. discriminate.
Defined.


(** ** The validator *)

Module ValidatorFacts.
Import Py Loops DOIValidator.
Local Open Scope py_scope.

Lemma bind_ok_inv {A B} (m : M A) (f : A -> M B) b :
  outcome (bind m f) = Ok b ->
  exists a, outcome m = Ok a /\ outcome (f a) = Ok b.
Proof.
  destruct m as [out [a|e]]; simpl; [|discriminate].
  intros H. exists a. split; [reflexivity|].
  destruct (f a) as [out' r]. exact H.
Qed.

(** Whenever the validator returns a result: an empty OpenCitations author
    makes [author_match] true, and equal publishers then make the entry
    valid, whatever the titles. *)
Lemma validate_doi_empty_author doi opencitations_data crossref_data v :
  outcome (validate_doi doi opencitations_data crossref_data) = Ok v ->
  opencitations_author v = "" ->
  opencitations_publisher v = crossref_publisher v ->
  author_match v = true /\ valid v = true.
Proof.
  unfold validate_doi. intros H.
  repeat match type of H with
         | outcome (bind _ _) = Ok _ =>
             let a := fresh "a" in
             let Ha := fresh "Ha" in
             apply bind_ok_inv in H as (a & Ha & H)
         end.
  inversion H; subst; clear H. simpl. intros -> ->. simpl.
  rewrite String.eqb_refl. split; [reflexivity|apply orb_true_r].
Qed.

Lemma bind_ret_l {A B} (a : A) (f : A -> M B) : bind (ret a) f = f a.
Proof. unfold bind, ret. destruct (f a). reflexivity. Qed.

Lemma names_of_named_authors l :
  Forall named_author l ->
  exists names,
    comprehension
      (fun author =>
         let* given := getitem author "given" in
         let* given_s := as_str_operand given in
         let* family := getitem author "family" in
         let* family_s := as_str_operand family in
         ret (given_s ++ " " ++ family_s)%string) l
    = ret names.
Proof.
  induction 1 as [|a l (d & g & f & -> & Hg & Hf) _ [names IH]].
  - exists []. reflexivity.
  - exists ((g ++ " " ++ f)%string :: names).
    cbn [comprehension]. rewrite IH. unfold getitem. rewrite Hg, Hf.
    cbn [as_str_operand]. rewrite !bind_ret_l. reflexivity.
Qed.

(** On records of the expected form the validator returns a result and
    prints nothing. *)
Lemma validate_doi_returns doi d1 d2 :
  well_formed_opencitations d1 -> well_formed_crossref d2 ->
  exists v, validate_doi doi (VDict d1) (VDict d2) = ret v.
Proof.
  intros (Ht & Ha & Hp) (Hcp & Hct & Hca).
  unfold validate_doi, get, str_or_absent in *.
  assert (Hl : exists l, default (VList []) (lookup "author" d2) = VList l
                         /\ Forall named_author l).
  { destruct (lookup "author" d2) as [[]|]; try contradiction; simpl; eauto. }
  destruct Hl as (l & -> & Hl).
  destruct (names_of_named_authors l Hl) as [names Hn].
  destruct (lookup "title" d1) as [[]|]; try contradiction;
  destruct (lookup "author" d1) as [[]|]; try contradiction;
  destruct (lookup "publisher" d1) as [[]|]; try contradiction;
  destruct (lookup "publisher" d2) as [[]|]; try contradiction;
  destruct (lookup "title" d2) as [[| | | |[|[] ?]|]|]; try contradiction;
  repeat first [ rewrite bind_ret_l | rewrite Hn
               | progress cbn [from_option Datatypes.id lower truthy getitem0 iter] ];
  eexists; reflexivity.
Qed.

(** So on such records the cross-check behaves as described: with an empty
    OpenCitations author and equal publishers the entry is reported valid,
    whatever the titles. *)
Lemma validate_doi_valid_on_well_formed doi d1 d2 :
  well_formed_opencitations d1 -> well_formed_crossref d2 ->
  exists v,
    validate_doi doi (VDict d1) (VDict d2) = ret v
    /\ (opencitations_author v = "" ->
        opencitations_publisher v = crossref_publisher v ->
        author_match v = true /\ valid v = true).
Proof.
  intros H1 H2. destruct (validate_doi_returns doi d1 d2 H1 H2) as [v Hv].
  exists v. split; [exact Hv|].
  apply (validate_doi_empty_author doi (VDict d1) (VDict d2)).
  rewrite Hv. reflexivity.
Qed.

Example validate_doi_titles_differ :
  outcome (validate_doi "10.5055/jom"
    (VDict [("title", VStr "A"); ("author", VStr ""); ("publisher", VStr "P")])
    (VDict [("title", VList [VStr "B"]); ("publisher", VStr "p");
            ("author", VList [VDict [("given", VStr "W"); ("family", VStr "Ho")]])]))
  = Ok (Validation "10.5055/jom" "a" "b" false "" "w ho" true "p" "p" true true).
Proof. vm_compute. reflexivity. Qed.

End ValidatorFacts.

Import DOIValidator.

(** C10 fails on a Crossref record with an author entry that has no
    "given" key (an organisation, say): the OpenCitations author is empty
    and the publishers are equal, but [author["given"]] raises KeyError and
    no result is reported. *)
Theorem validate_doi_raises_without_given :
  validate_doi "10.5055/jom"
    (VDict [("title", VStr "A"); ("author", VStr ""); ("publisher", VStr "P")])
    (VDict [("title", VList [VStr "B"]); ("publisher", VStr "P");
            ("author", VList [VDict [("name", VStr "WHO")]])])
  = ([], Raise KeyError).
Proof. reflexivity. Qed.


(** * Further properties of the scripts *)

(** ** The matcher with its capture *)

Module ReGroupFacts.
Import PyStr Re ReFacts.

Lemma run_sound_grp r :
  forall R c g (k : cursor -> option chars -> option R) res,
    run r c g k = Some res ->
    exists c' g', matches_grp r c g c' g' /\ k c' g' = Some res.
Proof.
  induction r; intros R c g k res H; simpl in H.
  - exists c, g. split; [constructor|exact H].
  - destruct c as [bef [|x aft]]; simpl in H; [discriminate|].
    destruct (p x) eqn:E; [|discriminate].
    eexists _, g. split; [constructor; exact E|exact H].
  - apply IHr1 in H as (c1 & g1 & H1 & H).
    apply IHr2 in H as (c2 & g2 & H2 & H).
    exists c2, g2. split; [econstructor; eauto|exact H].
  - destruct (run r1 c g k) eqn:E.
    + inversion H; subst. apply IHr1 in E as (c1 & g1 & H1 & E).
      exists c1, g1. split; [apply G_AltL; exact H1|exact E].
    + apply IHr2 in H as (c1 & g1 & H1 & H).
      exists c1, g1. split; [apply G_AltR; exact H1|exact H].
  - destruct (run r c g k) eqn:E.
    + inversion H; subst. apply IHr in E as (c1 & g1 & H1 & E).
      exists c1, g1. split; [apply G_OptSome; exact H1|exact E].
    + exists c, g. split; [apply G_OptNone|exact H].
  - apply rep_sound in H as (xs & aft' & Ha & Hlo & Hhi & Hall & Hk).
    exists (Cur (rev xs ++ before c) aft'), g. split; [|exact Hk].
    destruct c as [bef aft]; simpl in *; subst. constructor; auto.
  - destruct (run r c g (fun _ g1 => Some g1)) eqn:E; [|discriminate].
    apply IHr in E as (c1 & g1 & H1 & E). inversion E; subst.
    exists c, o. split; [econstructor; exact H1|exact H].
  - destruct (at_eos c) eqn:E; [|discriminate].
    exists c, g. split; [constructor; exact E|exact H].
  - destruct (at_wordb c) eqn:E; [|discriminate].
    exists c, g. split; [constructor; exact E|exact H].
  - apply IHr in H as (c1 & g1 & H1 & H).
    exists c1, (Some (span c c1)). split; [econstructor; exact H1|exact H].
Qed.

Lemma matches_grp_forget r c g c' g' : matches_grp r c g c' g' -> matches r c c'.
Proof.
  induction 1;
    first [ solve [econstructor; eauto] | apply M_AltR; assumption | apply M_OptNone ].
Qed.

End ReGroupFacts.

(** ** The PMID and the title of a reference *)

Module ReferenceMoreFacts.
Import PyStr Re ReFacts ReGroupFacts ReferenceProcessor.

Lemma grp_cat_inv r s c g c' g' :
  matches_grp (Cat r s) c g c' g' ->
  exists c2 g2, matches_grp r c g c2 g2 /\ matches_grp s c2 g2 c' g'.
Proof. inversion 1; subst; eauto. Qed.

Lemma grp_wordb_inv c g c' g' :
  matches_grp Wordb c g c' g' -> c' = c /\ g' = g /\ at_wordb c = true.
Proof. inversion 1; subst; auto. Qed.

Lemma grp_lit_inv l : forall c g c' g',
  matches_grp (lit_chars l) c g c' g' ->
  after c = l ++ after c' /\ before c' = rev l ++ before c /\ g' = g.
Proof.
  induction l as [|a l IH]; intros c g c' g' H; simpl in H.
  - inversion H; subst. auto.
  - apply grp_cat_inv in H as (c2 & g2 & H1 & H2).
    inversion H1; subst; clear H1.
    match goal with H : Ascii.eqb a _ = true |- _ => apply Ascii.eqb_eq in H; subst end.
    apply IH in H2 as (Ha & Hb & Hg). simpl in *.
    rewrite Ha, Hb, <- app_assoc. auto.
Qed.

Lemma grp_opt_chr_inv p c g c' g' :
  matches_grp (Opt (Chr p)) c g c' g' ->
  g' = g /\ exists sep,
    after c = sep ++ after c' /\ before c' = rev sep ++ before c
    /\ (sep = [] \/ exists x, sep = [x] /\ p x = true).
Proof.
  inversion 1 as [| | | | | ? ? ? ? ? Hc | | | | | |]; subst.
  - inversion Hc; subst. split; [reflexivity|]. exists [x]. simpl. eauto 6.
  - split; [reflexivity|]. exists []. auto.
Qed.

Lemma grp_rep_inv p lo hi c g c' g' :
  matches_grp (Grp (Rep p lo hi)) c g c' g' ->
  exists xs,
    after c = xs ++ after c' /\ before c' = rev xs ++ before c
    /\ lo <= List.length xs /\ forallb p xs = true /\ g' = Some xs.
Proof.
  inversion 1 as [| | | | | | | | | | | ? ? ? ? ? Hr]; subst.
  inversion Hr; subst. exists xs. simpl. rewrite span_consumed. auto 6.
Qed.

Lemma pmid_pattern_grp c c' g' :
  matches_grp pmid_pattern c None c' g' ->
  exists sep ds,
    after c = list_ascii_of_string "PMID" ++ sep ++ ds ++ after c'
    /\ at_wordb c = true /\ pmid_sep sep
    /\ 1 <= List.length ds /\ forallb is_digit ds = true
    /\ at_wordb c' = true /\ g' = Some ds
    /\ before c' = rev ds ++ rev sep ++ rev (list_ascii_of_string "PMID") ++ before c.
Proof.
  unfold pmid_pattern. intros H.
  apply grp_cat_inv in H as (c1 & g1 & Hb & H).
  apply grp_wordb_inv in Hb as (-> & -> & Hb).
  apply grp_cat_inv in H as (c2 & g2 & Hl & H).
  apply grp_lit_inv in Hl as (Ha2 & Hb2 & ->).
  apply grp_cat_inv in H as (c3 & g3 & Ho & H).
  apply grp_opt_chr_inv in Ho as (-> & sep & Ha3 & Hb3 & Hsep).
  apply grp_cat_inv in H as (c4 & g4 & Hr & H).
  apply grp_rep_inv in Hr as (ds & Ha4 & Hb4 & Hlo & Hdig & ->).
  apply grp_wordb_inv in H as (-> & -> & He).
  exists sep, ds. rewrite Ha2, Ha3, Ha4, Hb4, Hb3, Hb2.
  repeat split; auto.
Qed.

Lemma digit_is_word x : is_digit x = true -> is_word x = true.
Proof. unfold is_word, is_alnum. intros ->. reflexivity. Qed.

Lemma head_rev_digits ds bef :
  1 <= List.length ds -> forallb is_digit ds = true ->
  word_at (head (rev ds ++ bef)) = true.
Proof.
  intros Hlen Hdig. destruct (rev ds) as [|x t] eqn:E.
  - apply (f_equal (@List.length ascii)) in E. rewrite length_rev in E.
    simpl in E. lia.
  - simpl. apply digit_is_word.
    rewrite forallb_forall in Hdig. apply Hdig. apply in_rev. rewrite E. left. reflexivity.
Qed.

Lemma wordb_before_P bef aft :
  at_wordb (Cur bef (list_ascii_of_string "PMID" ++ aft)) = negb (word_at (head bef)).
Proof. unfold at_wordb. simpl. destruct (word_at (head bef)); reflexivity. Qed.

Lemma wordb_after_digits ds bef rest :
  1 <= List.length ds -> forallb is_digit ds = true ->
  at_wordb (Cur (rev ds ++ bef) rest) = negb (word_at (head rest)).
Proof.
  intros Hlen Hdig. unfold at_wordb. simpl.
  rewrite (head_rev_digits ds bef Hlen Hdig). reflexivity.
Qed.

Lemma pmid_pattern_complete bef sep ds rest :
  word_at (head bef) = false -> pmid_sep sep ->
  1 <= List.length ds -> forallb is_digit ds = true ->
  word_at (head rest) = false ->
  matches pmid_pattern
    (Cur bef ((list_ascii_of_string "PMID" ++ sep ++ ds) ++ rest))
    (Cur (rev (list_ascii_of_string "PMID" ++ sep ++ ds) ++ bef) rest).
Proof.
  intros Hb Hsep Hlen Hdig He. unfold pmid_pattern.
  set (b1 := rev (list_ascii_of_string "PMID") ++ bef).
  set (b2 := rev sep ++ b1).
  replace (rev (list_ascii_of_string "PMID" ++ sep ++ ds) ++ bef) with (rev ds ++ b2)
    by (subst b1 b2; rewrite !rev_app_distr, <- !app_assoc; reflexivity).
  rewrite <- !app_assoc.
  apply M_Cat with (c2 := Cur bef (list_ascii_of_string "PMID" ++ sep ++ ds ++ rest)).
  { constructor. rewrite wordb_before_P, Hb. reflexivity. }
  apply M_Cat with (c2 := Cur b1 (sep ++ ds ++ rest));
    [apply (ReferenceFacts.lit_chars_intro (list_ascii_of_string "PMID"))|].
  apply M_Cat with (c2 := Cur b2 (ds ++ rest)).
  { destruct Hsep as [->|(x & -> & Hx)]; subst b2; simpl.
    - apply M_OptNone.
    - apply M_OptSome. constructor. exact Hx. }
  apply M_Cat with (c2 := Cur (rev ds ++ b2) rest).
  - apply M_Grp with (c' := Cur (rev ds ++ b2) rest). constructor; simpl; auto.
  - constructor. rewrite wordb_after_digits by assumption. rewrite He. reflexivity.
Qed.

Lemma search_sound_grp r aft :
  forall bef m,
    search_from r bef aft = Some m ->
    exists pre d rest,
      aft = pre ++ d ++ rest
      /\ matches_grp r (Cur (rev pre ++ bef) (d ++ rest)) None
           (Cur (rev d ++ rev pre ++ bef) rest) (group1 m)
      /\ group0 m = d.
Proof.
  assert (Hhere : forall bef aft0 m, match_at r (Cur bef aft0) = Some m ->
    exists d rest, aft0 = d ++ rest
      /\ matches_grp r (Cur bef (d ++ rest)) None (Cur (rev d ++ bef) rest) (group1 m)
      /\ group0 m = d).
  { intros bef aft0 m H. unfold match_at in H.
    apply run_sound_grp in H as (c' & g' & Hm & H). inversion H; subst; clear H.
    destruct (matches_consumes _ _ _ (matches_grp_forget _ _ _ _ _ Hm)) as (xs & Ha & Hb).
    simpl in *. destruct c' as [bef' aft']; simpl in *; subst.
    exists xs, aft'. repeat split; auto. apply span_consumed. }
  induction aft as [|x aft IH]; intros bef m H; cbn [search_from] in H.
  - destruct (match_at r (Cur bef [])) eqn:E; [|discriminate].
    inversion H; subst. apply Hhere in E as (d & rest & Ha & Hm & Hg).
    exists [], d, rest. simpl. auto.
  - destruct (match_at r (Cur bef (x :: aft))) eqn:E.
    + inversion H; subst. apply Hhere in E as (d & rest & Ha & Hm & Hg).
      exists [], d, rest. simpl. auto.
    + apply IH in H as (pre & d & rest & -> & Hm & Hg).
      exists (x :: pre), d, rest. rewrite rev_cons_app. simpl. auto.
Qed.

(** The [pmid] key of the result, read off the search. *)
Lemma pmid_of_search reference :
  pmid (extract_reference_info reference) =
  match search pmid_pattern (list_ascii_of_string reference) with
  | Some m => field (group1 m)
  | None => None
  end.
Proof.
  unfold extract_reference_info. cbv zeta.
  set (dm := match search doi_pattern _ with Some m => Some (group0 m) | None => None end).
  destruct (search pmid_pattern (list_ascii_of_string reference)) as [m|].
  - destruct (truthy (group1 m)) eqn:E; cbn [negb andb pmid]; [reflexivity|].
    destruct (negb (truthy dm)); cbn [pmid]; [|reflexivity].
    unfold field. rewrite E. reflexivity.
  - cbn [truthy negb andb]. destruct (negb (truthy dm)); reflexivity.
Qed.

(** *** [find] and [strip] *)

Lemma find_char_absent c l : ~ In c l -> find_char c l = (-1)%Z.
Proof.
  induction l as [|x l IH]; intros H; simpl; [reflexivity|].
  destruct (Ascii.eqb_spec x c) as [->|Hne]; [exfalso; apply H; left; reflexivity|].
  rewrite IH by (intros Hin; apply H; right; exact Hin). reflexivity.
Qed.

Lemma find_char_first c pre rest :
  ~ In c pre -> find_char c (pre ++ c :: rest) = Z.of_nat (List.length pre).
Proof.
  induction pre as [|x pre IH]; intros H; simpl.
  - rewrite Ascii.eqb_refl. reflexivity.
  - destruct (Ascii.eqb_spec x c) as [->|Hne]; [exfalso; apply H; left; reflexivity|].
    rewrite IH by (intros Hin; apply H; right; exact Hin).
    destruct (Z.ltb_spec (Z.of_nat (List.length pre)) 0); lia.
Qed.

Lemma skipn_past (pre : chars) c rest :
  skipn (S (List.length pre)) (pre ++ c :: rest) = rest.
Proof. induction pre as [|x pre IH]; simpl; [reflexivity|exact IH]. Qed.

Lemma lstrip_head l c : head (lstrip l) = Some c -> is_space c = false.
Proof.
  induction l as [|x l IH]; simpl; [discriminate|].
  destruct (is_space x) eqn:E; [exact IH|]. simpl. intros H. inversion H; subst. exact E.
Qed.

Lemma lstrip_app_nonspace l x t :
  is_space x = false -> lstrip (l ++ x :: t) = lstrip l ++ x :: t.
Proof.
  intros Hx. induction l as [|a l IH]; simpl; [rewrite Hx; reflexivity|].
  destruct (is_space a); [exact IH|reflexivity].
Qed.

Lemma strip_ends l :
  (forall c, head (strip l) = Some c -> is_space c = false)
  /\ (forall c, head (rev (strip l)) = Some c -> is_space c = false).
Proof.
  unfold strip, rstrip. split; intros c H.
  - destruct (lstrip l) as [|x t] eqn:E; [discriminate H|].
    assert (Hx : is_space x = false) by (apply (lstrip_head l); rewrite E; reflexivity).
    simpl in H. rewrite lstrip_app_nonspace, rev_app_distr in H by exact Hx.
    simpl in H. inversion H; subst. exact Hx.
  - rewrite rev_involutive in H. apply lstrip_head in H. exact H.
Qed.

End ReferenceMoreFacts.

Import PyStr Re ReferenceProcessor.

(** X1. A [pmid] key is the run of decimal digits that follows "PMID" and at
    most one colon or whitespace character, where "PMID" does not continue a
    word and the digits are not followed by a word character; the key is
    present whenever the reference has such a place. *)
Theorem extract_reference_info_pmid (reference : string) :
  (forall p, pmid (extract_reference_info reference) = Some p ->
     exists pre sep rest,
       pmid_found (list_ascii_of_string reference) pre sep (list_ascii_of_string p) rest)
  /\ (forall pre sep ds rest,
        pmid_found (list_ascii_of_string reference) pre sep ds rest ->
        is_Some (pmid (extract_reference_info reference))).
Proof.
  rewrite ReferenceMoreFacts.pmid_of_search. unfold search.
  destruct (search_from pmid_pattern [] (list_ascii_of_string reference)) as [m|] eqn:E.
  - apply ReferenceMoreFacts.search_sound_grp in E as (pre & d & rest & Hs & Hm & _).
    apply ReferenceMoreFacts.pmid_pattern_grp in Hm
      as (sep & ds & Ha & Hb & Hsep & Hlen & Hdig & He & Hg & Hbef).
    cbn [after before] in Ha, Hb, He, Hbef.
    assert (Hf : field (group1 m) = Some (string_of_list_ascii ds)).
    { rewrite Hg. unfold field. destruct ds; [simpl in Hlen; lia|reflexivity]. }
    rewrite Hf. split.
    + intros p Hp. inversion Hp; subst p. rewrite list_ascii_of_string_of_list_ascii.
      exists pre, sep, rest. unfold pmid_found.
      rewrite Hs, Ha. repeat split; auto.
      * rewrite Ha, app_nil_r, ReferenceMoreFacts.wordb_before_P in Hb.
        destruct (word_at (head (rev pre))); [discriminate|reflexivity].
      * rewrite Hbef, ReferenceMoreFacts.wordb_after_digits in He by assumption.
        destruct (word_at (head rest)); [discriminate|reflexivity].
    + intros _ _ _ _ _. eexists. reflexivity.
  - split; [intros p Hp; discriminate Hp|].
    intros pre sep ds rest (Hs & Hb & Hsep & Hlen & Hdig & He). exfalso.
    revert E. rewrite Hs.
    replace (pre ++ list_ascii_of_string "PMID" ++ sep ++ ds ++ rest)
      with (pre ++ (list_ascii_of_string "PMID" ++ sep ++ ds) ++ rest)
      by (rewrite <- !app_assoc; reflexivity).
    apply ReFacts.search_complete. apply ReferenceMoreFacts.pmid_pattern_complete; auto.
    rewrite app_nil_r. exact Hb.
Qed.


Lemma extract_reference_info_pmid_witness :
  is_Some (pmid (extract_reference_info "Doe J (2019) PMID:31415 and more")).
Proof.
  apply (proj2 (extract_reference_info_pmid "Doe J (2019) PMID:31415 and more")
           (list_ascii_of_string "Doe J (2019) ") (list_ascii_of_string ":")
           (list_ascii_of_string "31415") (list_ascii_of_string " and more")).
  unfold pmid_found. split; [reflexivity|]. split; [reflexivity|].
  split; [right; exists ":"%char; split; reflexivity|].
  split; [simpl; lia|]. split; reflexivity.
Defined.

(** X2. A title-only result carries the text after the first closing
    parenthesis of the reference, or the whole reference when it has none,
    without the whitespace at its two ends. *)
Theorem extract_reference_info_title (reference t : string) :
  title (extract_reference_info reference) = Some t ->
  (forall c, head (list_ascii_of_string t) = Some c -> is_space c = false)
  /\ (forall c, head (rev (list_ascii_of_string t)) = Some c -> is_space c = false)
  /\ (forall pre rest,
        list_ascii_of_string reference = pre ++ ")"%char :: rest ->
        ~ In ")"%char pre ->
        list_ascii_of_string t = strip rest)
  /\ (~ In ")"%char (list_ascii_of_string reference) ->
      list_ascii_of_string t = strip (list_ascii_of_string reference)).
Proof.
  unfold extract_reference_info. cbv zeta.
  destruct (negb _ && negb _); cbn [title]; [|discriminate].
  intros H. inversion H; subst t; clear H.
  rewrite list_ascii_of_string_of_list_ascii.
  split; [apply ReferenceMoreFacts.strip_ends|].
  split; [apply ReferenceMoreFacts.strip_ends|].
  split.
  - intros pre rest Hs Hpre. rewrite Hs.
    rewrite ReferenceMoreFacts.find_char_first by exact Hpre.
    unfold slice_from.
    replace (Z.to_nat (Z.of_nat (List.length pre) + 1)) with (S (List.length pre)) by lia.
    rewrite ReferenceMoreFacts.skipn_past. reflexivity.
  - intros Hno. rewrite ReferenceMoreFacts.find_char_absent by exact Hno. reflexivity.
Qed.

Lemma extract_reference_info_title_witness :
  list_ascii_of_string "A study of things." = strip (list_ascii_of_string " A study of things. ").
Proof.
  assert (H : title (extract_reference_info "Doe J (2019) A study of things. ")
              = Some "A study of things.") by (vm_compute; reflexivity).
  apply (proj1 (proj2 (proj2 (extract_reference_info_title _ _ H)))
           (list_ascii_of_string "Doe J (2019")).
  - reflexivity.
  - vm_compute. intuition discriminate.
Defined.

(** ** More on the matcher and the corpus *)

Module MatcherMoreFacts.
Import PyStr DOIMatcher.

Lemma in_match_dois doi_set json_data citing cited :
  In (citing, cited) (match_dois doi_set json_data) <->
  exists e, In (citing, e) json_data /\ In cited (get_referenced_dois e)
            /\ cited ∈ doi_set.
Proof.
  rewrite MatcherFacts.match_dois_flat_map, in_flat_map. split.
  - intros ([c' e] & Hin & Hed). unfold edges_of in Hed. simpl in Hed.
    apply in_map_iff in Hed as (r & Heq & Hr). inversion Heq; subst.
    apply filter_In in Hr as [Hr Hc]. exists e. repeat split; auto.
    unfold in_corpus in Hc. apply bool_decide_eq_true in Hc. exact Hc.
  - intros (e & Hin & Hr & Hc). exists (citing, e). split; [exact Hin|].
    unfold edges_of. simpl. apply in_map. apply filter_In. split; [exact Hr|].
    unfold in_corpus. apply bool_decide_eq_true. exact Hc.
Qed.

Lemma filter_length_le {A} (f : A -> bool) (l : list A) :
  List.length (List.filter f l) <= List.length l.
Proof. induction l as [|x l IH]; simpl; [lia|]. destruct (f x); simpl; lia. Qed.

Lemma delete_aux_length old l : forall skip,
  List.length (delete_all_aux old skip l) <= List.length l.
Proof.
  induction l as [|c l IH]; intros skip; cbn [delete_all_aux]; [simpl; lia|].
  destruct skip as [|n].
  - destruct (starts_with old (c :: l)); simpl.
    + specialize (IH (pred (List.length old))). lia.
    + specialize (IH 0). lia.
  - specialize (IH n). simpl. lia.
Qed.

Lemma delete_shrinks old l :
  old <> [] -> occurs old l = true ->
  List.length (delete_all old l) < List.length l.
Proof.
  intros Hold. unfold delete_all. induction l as [|c l IH]; intros H.
  - destruct old; [congruence|discriminate].
  - cbn [delete_all_aux].
    change (occurs old (c :: l)) with (starts_with old (c :: l) || occurs old l) in H.
    destruct (starts_with old (c :: l)); simpl.
    + pose proof (delete_aux_length old l (pred (List.length old))). lia.
    + simpl in H. specialize (IH H). lia.
Qed.

End MatcherMoreFacts.

Import DOIMatcher DOIMatcherPipeline.

(** X3. Matching goes through the JSON entries in order and keeps nothing
    between them: the matches of two inputs put one after the other are the
    matches of the first followed by the matches of the second. *)
Theorem match_dois_app (doi_set : gset string) (d1 d2 : list (string * entry)) :
  match_dois doi_set (d1 ++ d2) = match_dois doi_set d1 ++ match_dois doi_set d2.
Proof. rewrite !MatcherFacts.match_dois_flat_map. apply flat_map_app. Qed.

(** X4. A larger corpus only adds matches, the empty corpus gives none, and
    there are never more matches than referenced DOIs in the input. *)
Theorem match_dois_monotone (json_data : list (string * entry)) :
  (forall (s1 s2 : gset string), s1 ⊆ s2 ->
     forall edge, In edge (match_dois s1 json_data) -> In edge (match_dois s2 json_data))
  /\ match_dois ∅ json_data = []
  /\ (forall doi_set : gset string,
        List.length (match_dois doi_set json_data)
        <= List.length (flat_map (fun item => get_referenced_dois (snd item)) json_data)).
Proof.
  split; [|split].
  - intros s1 s2 Hsub [citing cited] Hin.
    apply MatcherMoreFacts.in_match_dois in Hin as (e & He & Hr & Hc).
    apply MatcherMoreFacts.in_match_dois. exists e. repeat split; auto.
  - destruct (match_dois ∅ json_data) as [|[citing cited] rest] eqn:E; [reflexivity|].
    assert (Hin : In (citing, cited) (match_dois ∅ json_data))
      by (rewrite E; left; reflexivity).
    apply MatcherMoreFacts.in_match_dois in Hin as (e & _ & _ & Hc).
    exfalso. revert Hc. apply not_elem_of_empty.
  - intros doi_set. rewrite MatcherFacts.match_dois_flat_map.
    induction json_data as [|item rest IH]; simpl; [lia|].
    rewrite !length_app. unfold edges_of at 1. rewrite length_map.
    pose proof (MatcherMoreFacts.filter_length_le (in_corpus doi_set)
                  (get_referenced_dois (snd item))). lia.
Qed.

Lemma match_dois_monotone_witness :
  In ("10.1000/c", "10.1000/a")
     (match_dois {["10.1000/a"; "10.1000/b"]}
        [("10.1000/c", Entry "10.1000/c" (Some ["10.1000/a"; "10.1000/b"]))]).
Proof.
  apply (proj1 (match_dois_monotone _) {["10.1000/a"]} {["10.1000/a"; "10.1000/b"]}).
  - set_solver.
  - vm_compute. left. reflexivity.
Defined.



(** X6. Cleaning leaves an id unchanged exactly when "doi:" does not occur
    in it, and it never makes an id longer. *)
Theorem clean_id_fixed_iff (s : string) :
  (clean_id s = s <-> PyStr.occurs doi_prefix (list_ascii_of_string s) = false)
  /\ List.length (list_ascii_of_string (clean_id s))
     <= List.length (list_ascii_of_string s).
Proof.
  unfold clean_id. rewrite list_ascii_of_string_of_list_ascii. split.
  - split.
    + intros H. destruct (PyStr.occurs doi_prefix (list_ascii_of_string s)) eqn:E;
        [|reflexivity].
      apply MatcherMoreFacts.delete_shrinks in E; [|discriminate].
      apply (f_equal list_ascii_of_string) in H.
      rewrite list_ascii_of_string_of_list_ascii in H. rewrite H in E. lia.
    + intros H. rewrite MatcherFacts.delete_free by exact H.
      apply string_of_list_ascii_of_string.
  - apply MatcherMoreFacts.delete_aux_length.
Qed.

Lemma clean_id_fixed_iff_witness : clean_id "10.1000/abc" = "10.1000/abc".
Proof. apply (proj2 (proj1 (clean_id_fixed_iff "10.1000/abc"))). reflexivity. Defined.

(** X7. The pipeline saves the pair (citing, cited) exactly when cited is
    listed under citing in the JSON data and is, character for character,
    the cleaned form of some id of the CSV file; the referenced DOIs
    themselves are compared as they stand. *)
Theorem process_edges (ids : list (option string)) (json_data : list (string * entry))
    (citing cited : string) :
  In (citing, cited) (process ids json_data) <->
  exists e id,
    In (citing, e) json_data /\ In cited (get_referenced_dois e)
    /\ In (Some id) ids /\ clean_id id = cited.
Proof.
  unfold process. rewrite MatcherMoreFacts.in_match_dois. split.
  - intros (e & He & Hr & Hc). apply MatcherFacts.elem_of_load_csv in Hc as (id & Hid & Hcl).
    exists e, id. auto.
  - intros (e & id & He & Hr & Hid & Hcl). exists e. repeat split; auto.
    apply MatcherFacts.elem_of_load_csv. exists id. auto.
Qed.

Lemma process_edges_witness :
  In ("10.1000/c", "10.1000/a")
     (process [Some "doi:10.1000/a"]
        [("10.1000/c", Entry "10.1000/c" (Some ["10.1000/a"]))]).
Proof.
  apply (proj2 (process_edges _ _ _ _)).
  exists (Entry "10.1000/c" (Some ["10.1000/a"])), "doi:10.1000/a".
  split; [left; reflexivity|]. split; [left; reflexivity|].
  split; [left; reflexivity|reflexivity].
Defined.

(** ** More on fetching and storing metadata *)

Module GathererFacts.
Import Py Loops CrossRefProcessor CrossRefFilter.
Local Open Scope py_scope.

Lemma outcome_bind_ext {A B} (m : M A) (f g : A -> M B) :
  (forall a, outcome (f a) = outcome (g a)) ->
  outcome (bind m f) = outcome (bind m g).
Proof.
  intros H. destruct m as [out [a|e]]; simpl; [|reflexivity].
  specialize (H a). destruct (f a), (g a). exact H.
Qed.

Lemma bind_raise_inv {A B} (m : M A) (f : A -> M B) e :
  outcome (bind m f) = Raise e ->
  outcome m = Raise e \/ exists a, outcome m = Ok a /\ outcome (f a) = Raise e.
Proof.
  destruct m as [out [a|e']]; simpl.
  - intros H. right. exists a. split; [reflexivity|]. destruct (f a). exact H.
  - intros H. inversion H; subst. left. reflexivity.
Qed.

Lemma for_each_never_raises {A S} (body : S -> A -> M S) e l :
  (forall s x, outcome (body s x) <> Raise e) ->
  forall s, outcome (for_each l body s) <> Raise e.
Proof.
  intros Hbody. induction l as [|x l IH]; intros s; simpl; [discriminate|].
  intros H. apply bind_raise_inv in H as [H|(s' & _ & H)].
  - exact (Hbody s x H).
  - exact (IH s' H).
Qed.

(** What holds of the state after a loop that ends normally: a property
    of the elements gone through and the state, kept by every turn. *)
Lemma for_each_prefix_inv {A S} (body : S -> A -> M S) (P : list A -> S -> Prop) l :
  forall s0,
    P [] s0 ->
    (forall pre x s s', P pre s -> outcome (body s x) = Ok s' -> P (pre ++ [x]) s') ->
    forall s, outcome (for_each l body s0) = Ok s -> P l s.
Proof.
  intros s0 H0 Hstep. induction l as [|x l IH] using rev_ind; intros s H.
  - simpl in H. inversion H; subst. exact H0.
  - rewrite FetchFacts.for_each_app in H.
    apply ValidatorFacts.bind_ok_inv in H as (s1 & H1 & H).
    simpl in H. apply ValidatorFacts.bind_ok_inv in H as (s2 & H2 & H).
    simpl in H. inversion H; subst. apply (Hstep l x s1 s); [apply IH; exact H1|exact H2].
Qed.

Lemma try_except_ok_inv {A} (body : M A) catches handler a :
  outcome (try_except body catches handler) = Ok a ->
  outcome body = Ok a
  \/ exists e, outcome body = Raise e /\ catches e = true /\ outcome (handler e) = Ok a.
Proof.
  destruct body as [out [a'|e]]; simpl; [auto|].
  destruct (catches e) eqn:E; [|discriminate].
  intros H. right. exists e. repeat split; auto. destruct (handler e). exact H.
Qed.

Lemma try_except_raise_inv {A} (body : M A) catches handler e :
  (forall e', outcome (handler e') <> Raise e) ->
  outcome (try_except body catches handler) = Raise e -> catches e = false.
Proof.
  intros Hh. destruct body as [out [a'|e']]; simpl; [discriminate|].
  destruct (catches e') eqn:E.
  - intros H. exfalso. apply (Hh e'). destruct (handler e'). exact H.
  - intros H. inversion H; subst. exact E.
Qed.

Section WithFormat.
Variable py_format : value -> string.

Lemma get_crossref_data_request_error doi net e :
  request_error net = Some e ->
  get_crossref_data py_format doi net = ([ErrorLine doi e], Ok None).
Proof.
  destruct net as [kind|status body]; simpl.
  - intros H. inversion H; subst. reflexivity.
  - destruct ((400 <=? status)%Z && (status <? 600)%Z) eqn:E; [|discriminate].
    intros H. inversion H; subst.
    apply andb_true_iff in E as [Hlo Hhi].
    apply FetchFacts.get_crossref_data_error_status.
    split; [apply Z.leb_le; exact Hlo|apply Z.ltb_lt; exact Hhi].
Qed.

Lemma get_crossref_data_no_request_exception doi net kind :
  outcome (get_crossref_data py_format doi net) <> Raise (RequestException kind).
Proof.
  unfold get_crossref_data. intros H.
  apply try_except_raise_inv in H; [discriminate|].
  intros e'. simpl. discriminate.
Qed.

Lemma get_crossref_data_doi doi net d :
  outcome (get_crossref_data py_format doi net) = Ok (Some d) -> cd_doi d = doi.
Proof.
  intros H. unfold get_crossref_data in H.
  apply try_except_ok_inv in H as [H|(e & _ & _ & H)]; [|simpl in H; discriminate].
  repeat match type of H with
         | outcome (bind _ _) = Ok _ =>
             let a := fresh "a" in
             let Ha := fresh "Ha" in
             apply ValidatorFacts.bind_ok_inv in H as (a & Ha & H)
         end.
  inversion H; subst. reflexivity.
Qed.

End WithFormat.

(** *** The filter *)

Lemma referenced_dois_of_dicts ents : forall acc,
  for_each (map VDict ents)
    (fun dois entity =>
       let* has_doi := contains_str "DOI" entity in
       if has_doi
       then let* d := getitem entity "DOI" in ret (dois ++ [d])
       else ret dois)
    acc
  = ret (acc ++ omap (lookup "DOI") ents).
Proof.
  induction ents as [|ent ents IH]; intros acc; simpl.
  - rewrite app_nil_r. reflexivity.
  - unfold getitem. destruct (lookup "DOI" ent) as [v|] eqn:E; simpl.
    + rewrite IH, <- app_assoc. reflexivity.
    + rewrite IH. reflexivity.
Qed.

Lemma filter_entries entries : forall acc,
  for_each (map metadata_entry entries)
    (fun filtered_data kv =>
       let doi := fst kv in
       let* entities_v := get (snd kv) "referenced_entities" (VList []) in
       let* entities := iter entities_v in
       let* dois := referenced_dois_of entities in
       ret (filtered_data ++ [(doi, FilteredEntry doi dois)]))
    acc
  = ret (acc ++ map (fun kv => (fst kv, FilteredEntry (fst kv)
                                          (omap (lookup "DOI") (snd kv)))) entries).
Proof.
  induction entries as [|kv entries IH]; intros acc; simpl.
  - rewrite app_nil_r. reflexivity.
  - unfold referenced_dois_of at 1. rewrite referenced_dois_of_dicts. simpl.
    rewrite IH, <- app_assoc. reflexivity.
Qed.

End GathererFacts.

Import Py Loops CrossRefProcessor CrossRefFilter.

(** X8. Whatever the network answers, a request failure never leaves
    [process_data]: the run does not end with a [RequestException]. *)
Theorem process_data_never_raises_request_exception
    (py_format : value -> string) (rows : list (string * http)) (kind : string) :
  outcome (process_data py_format rows) <> Raise (RequestException kind).
Proof.
  unfold process_data. apply GathererFacts.for_each_never_raises.
  intros st row H. apply GathererFacts.bind_raise_inv in H as [H|(fetched & _ & H)].
  - exact (GathererFacts.get_crossref_data_no_request_exception _ _ _ _ H).
  - destruct fetched; discriminate H.
Qed.

(** X9. A DOI whose request fails (no response, or a status from 400 to
    599) leaves no trace in what is saved: the run ends as it would without
    that row; its only effect is one printed line. *)
Theorem process_data_failed_request_leaves_no_trace
    (py_format : value -> string) (doi : string) (net : http) (e : exn)
    (before after : list (string * http)) :
  request_error net = Some e ->
  outcome (process_data py_format (before ++ (doi, net) :: after))
  = outcome (process_data py_format (before ++ after))
  /\ process_data py_format ((doi, net) :: after)
     = (ErrorLine doi e :: output (process_data py_format after),
        outcome (process_data py_format after)).
Proof.
  intros Hnet.
  pose proof (GathererFacts.get_crossref_data_request_error py_format doi net e Hnet) as Hget.
  split.
  - unfold process_data. rewrite !FetchFacts.for_each_app.
    apply GathererFacts.outcome_bind_ext. intros st.
    cbn [for_each fst snd]. rewrite Hget. simpl.
    destruct (for_each after _ st). reflexivity.
  - apply FetchFacts.process_data_skips_failed_fetch. exact Hget.
Qed.

Lemma process_data_failed_request_leaves_no_trace_witness :
  outcome (process_data (fun _ => "")
             ([] ++ ("10.1000/a", Response 404 VNone)
                 :: [("10.1000/b", Response 200 (VDict [("message", VDict [])]))]))
  = outcome (process_data (fun _ => "")
               ([] ++ [("10.1000/b", Response 200 (VDict [("message", VDict [])]))])).
Proof.
  apply (proj1 (process_data_failed_request_leaves_no_trace (fun _ => "")
           "10.1000/a" (Response 404 VNone) (RequestException "HTTPError") [] _
           eq_refl)).
Defined.

(** X10. When [process_data] ends normally: the keys of [references_data]
    are the DOIs of the CSV rows; the rows follow the order of the input
    (some rows of the input may be missing, none is added); in every row
    [id] repeats [primary_id] and the columns venue, volume, page, type and
    editor are empty; every entry of [references_data] carries its own key
    as [doi]. *)
Theorem process_data_invariants
    (py_format : value -> string) (rows : list (string * http))
    (references_data : gmap string ref_entry) (csv_rows : list csv_row) :
  outcome (process_data py_format rows) = Ok (references_data, csv_rows) ->
  dom references_data = list_to_set (map primary_id csv_rows)
  /\ sublist (map primary_id csv_rows) (map fst rows)
  /\ Forall (fun row => id row = primary_id row /\ venue row = "" /\ volume row = ""
                        /\ page row = "" /\ type_ row = "" /\ editor row = "") csv_rows
  /\ (forall k entry, references_data !! k = Some entry -> re_doi entry = k).
Proof.
  unfold process_data. intros H.
  apply (GathererFacts.for_each_prefix_inv _
    (fun pre (st : gmap string ref_entry * list csv_row) =>
       dom (fst st) = list_to_set (map primary_id (snd st))
       /\ sublist (map primary_id (snd st)) (map fst pre)
       /\ Forall (fun row => id row = primary_id row /\ venue row = "" /\ volume row = ""
                             /\ page row = "" /\ type_ row = "" /\ editor row = "")
                 (snd st)
       /\ (forall k entry, fst st !! k = Some entry -> re_doi entry = k))) in H.
  - exact H.
  - simpl. split; [|split; [|split]].
    + rewrite dom_empty_L. reflexivity.
    + apply sublist_nil.
    + apply Forall_nil_2.
    + intros k entry Hk. rewrite lookup_empty in Hk. discriminate.
  - clear. intros pre [doi net] [refs csv] st' (Hdom & Hsub & Hrows & Hkeys) Hbody.
    simpl in *. apply ValidatorFacts.bind_ok_inv in Hbody as (fetched & Hget & Hbody).
    destruct fetched as [d|]; simpl in Hbody; inversion Hbody; subst; clear Hbody; simpl.
    + repeat split.
      * rewrite dom_insert_L, map_app, list_to_set_app_L, Hdom. simpl.
        rewrite (right_id_L ∅ (∪)). apply (comm_L (∪)).
      * rewrite !map_app. apply sublist_app; [exact Hsub|reflexivity].
      * apply Forall_app. split; [exact Hrows|].
        constructor; [|constructor]. simpl.
        rewrite (GathererFacts.get_crossref_data_doi _ _ _ _ Hget). auto 6.
      * intros k entry Hk. destruct (decide (doi = k)) as [->|Hne].
        -- rewrite lookup_insert_eq in Hk. inversion Hk. reflexivity.
        -- rewrite lookup_insert_ne in Hk by exact Hne. apply Hkeys. exact Hk.
    + repeat split; auto.
      rewrite map_app. apply sublist_inserts_r. exact Hsub.
Qed.

Lemma process_data_invariants_witness :
  sublist (map primary_id
             [make_csv_row "10.1000/b"
                (CrossrefData "10.1000/b" (VStr "No Title Available") (VStr "") (VStr "")
                   (VStr "") "" (VList []))])
          (map fst [("10.1000/a", Response 404 VNone);
                    ("10.1000/b", Response 200 (VDict [("message", VDict [])]))]).
Proof.
  assert (H : outcome (process_data (fun _ => "")
                [("10.1000/a", Response 404 VNone);
                 ("10.1000/b", Response 200 (VDict [("message", VDict [])]))])
              = Ok (({["10.1000/b" := RefEntry "10.1000/b" (VList [])]}
                      : gmap string ref_entry),
                    [make_csv_row "10.1000/b"
                       (CrossrefData "10.1000/b" (VStr "No Title Available") (VStr "")
                          (VStr "") (VStr "") "" (VList []))]))
    by (vm_compute; reflexivity).
  exact (proj1 (proj2 (process_data_invariants _ _ _ _ H))).
Defined.

(** X11. A record built from a Crossref message copies publisher, issue
    and reference list, with the empty string (or the empty list) for a
    missing key, carries the requested DOI, and has the title "No Title
    Available" when the message has no title or an empty one. *)
Theorem get_crossref_data_record
    (py_format : value -> string) (doi : string) (status : Z)
    (body msg : list (string * value)) (d : crossref_data) :
  lookup "message" body = Some (VDict msg) ->
  outcome (get_crossref_data py_format doi (Response status (VDict body))) = Ok (Some d) ->
  cd_doi d = doi
  /\ cd_publisher d = default (VStr "") (lookup "publisher" msg)
  /\ cd_issue d = default (VStr "") (lookup "issue" msg)
  /\ cd_references d = default (VList []) (lookup "reference" msg)
  /\ (truthy (default VNone (lookup "title" msg)) = false ->
      cd_title d = VStr "No Title Available").
Proof.
  intros Hmsg H. unfold get_crossref_data in H.
  apply GathererFacts.try_except_ok_inv in H as [H|(e & _ & _ & H)]; [|simpl in H; discriminate].
  repeat match type of H with
         | outcome (bind _ _) = Ok _ =>
             let a := fresh "a" in
             let Ha := fresh "Ha" in
             apply ValidatorFacts.bind_ok_inv in H as (a & Ha & H)
         end.
  inversion H; subst; clear H. cbn [cd_doi cd_publisher cd_issue cd_references cd_title].
  simpl in Ha. inversion Ha; subst; clear Ha.
  simpl in Ha1. inversion Ha1; subst; clear Ha1.
  simpl in Ha2. rewrite Hmsg in Ha2. simpl in Ha2. inversion Ha2; subst; clear Ha2.
  simpl in Ha3, Ha5, Ha6, Ha12.
  inversion Ha3; subst; clear Ha3. inversion Ha5; subst; clear Ha5.
  inversion Ha6; subst; clear Ha6. inversion Ha12; subst; clear Ha12.
  repeat split; auto.
  intros Ht. destruct (lookup "title" msg) as [t|]; simpl in Ht, Ha4;
    [rewrite Ht in Ha4|]; simpl in Ha4; inversion Ha4; reflexivity.
Qed.

Lemma get_crossref_data_record_witness :
  cd_doi (CrossrefData "10.1000/b" (VStr "No Title Available") (VStr "P") (VStr "")
            (VStr "") "" (VList []))
  = "10.1000/b".
Proof.
  apply (get_crossref_data_record (fun _ => "") "10.1000/b" 200
           [("message", VDict [("publisher", VStr "P"); ("title", VList [])])]
           [("publisher", VStr "P"); ("title", VList [])]).
  - reflexivity.
  - vm_compute. reflexivity.
Defined.

(** X12. On a metadata file whose reference lists are made of
    dictionaries, the filter keeps every key in order and lists under it
    the values of the "DOI" keys of its references, in order; a reference
    without a "DOI" key is passed over. *)
Theorem filter_referenced_dois_of_dicts
    (entries : list (string * list (list (string * value)))) :
  filter_referenced_dois (VDict (map metadata_entry entries))
  = ret (map (fun kv => (fst kv, FilteredEntry (fst kv) (omap (lookup "DOI") (snd kv))))
             entries).
Proof.
  unfold filter_referenced_dois, items. rewrite ValidatorFacts.bind_ret_l.
  rewrite GathererFacts.filter_entries. reflexivity.
Qed.

(** X13. When every "DOI" value of the metadata file is a string, the
    filtered file is one the matcher reads, and the matcher finds (citing,
    cited) exactly when cited is the "DOI" of a reference listed under
    citing in the metadata file and is in the corpus. *)
Theorem filtered_dois_feed_the_matcher
    (entries : list (string * list (list (string * value)))) (doi_set : gset string) :
  (forall kv ent v, In kv entries -> In ent (snd kv) ->
                    lookup "DOI" ent = Some v -> exists s, v = VStr s) ->
  exists filtered json,
    filter_referenced_dois (VDict (map metadata_entry entries)) = ret filtered
    /\ matcher_input filtered = Some json
    /\ forall citing cited,
         In (citing, cited) (DOIMatcher.match_dois doi_set json) <->
         exists kv ent,
           In kv entries /\ fst kv = citing /\ In ent (snd kv)
           /\ lookup "DOI" ent = Some (VStr cited) /\ cited ∈ doi_set.
Proof.
  intros Hstr.
  set (g := fun ent : list (string * value) =>
              match lookup "DOI" ent with Some (VStr s) => Some s | _ => None end).
  assert (Hents : forall ents,
            (forall ent v, In ent ents -> lookup "DOI" ent = Some v -> exists s, v = VStr s) ->
            mapM as_string (omap (lookup "DOI") ents) = Some (omap g ents)).
  { induction ents as [|ent ents IH]; intros H; [reflexivity|].
    assert (IH' := IH (fun e v Hin => H e v (or_intror Hin))).
    cbn [omap list_omap]. unfold g at 1.
    destruct (lookup "DOI" ent) as [v|] eqn:E; [|exact IH'].
    destruct (H ent v (or_introl eq_refl) E) as [s ->].
    cbn. rewrite IH'. reflexivity. }
  exists (map (fun kv => (fst kv, FilteredEntry (fst kv) (omap (lookup "DOI") (snd kv))))
              entries),
         (map (fun kv => (fst kv, DOIMatcher.Entry (fst kv) (Some (omap g (snd kv)))))
              entries).
  split.
  { unfold filter_referenced_dois, items. rewrite ValidatorFacts.bind_ret_l.
    rewrite GathererFacts.filter_entries. reflexivity. }
  split.
  - unfold matcher_input. clear doi_set.
    assert (Hcons : forall {A B} (f : A -> option B) x l y k,
              f x = Some y -> mapM f l = Some k -> mapM f (x :: l) = Some (y :: k)).
    { intros A B f x l y k Hx Hl. cbn. rewrite Hx, Hl. reflexivity. }
    induction entries as [|kv entries IH]; [reflexivity|].
    cbn [map]. apply Hcons.
    + unfold matcher_entry. cbn [fst snd fe_doi fe_referenced_dois].
      rewrite (Hents (snd kv))
        by (intros ent v Hin; apply (Hstr kv ent v); [left; reflexivity|exact Hin]).
      reflexivity.
    + apply IH. intros kv' ent v Hin. apply (Hstr kv' ent v). right. exact Hin.
  - intros citing cited. rewrite MatcherMoreFacts.in_match_dois. split.
    + intros (e & He & Hr & Hc). apply in_map_iff in He as (kv & Hkv & Hin).
      inversion Hkv; subst; clear Hkv. cbn in Hr.
      apply list_elem_of_In, list_elem_of_omap in Hr as (ent & Hent & Hg).
      apply list_elem_of_In in Hent. unfold g in Hg.
      destruct (lookup "DOI" ent) as [[]|] eqn:E; try discriminate.
      inversion Hg; subst. exists kv, ent. auto 6.
    + intros (kv & ent & Hkv & <- & Hent & Hd & Hc).
      exists (DOIMatcher.Entry (fst kv) (Some (omap g (snd kv)))).
      split; [apply in_map_iff; exists kv; auto|]. split; [|exact Hc].
      cbn. apply list_elem_of_In, list_elem_of_omap. exists ent.
      split; [apply list_elem_of_In; exact Hent|]. unfold g. rewrite Hd. reflexivity.
Qed.

Lemma filtered_dois_feed_the_matcher_witness :
  exists filtered json,
    filter_referenced_dois
      (VDict (map metadata_entry
                [("10.1000/c", [[("key", VStr "r1"); ("DOI", VStr "10.1000/a")];
                                [("key", VStr "r2")]])]))
    = ret filtered
    /\ matcher_input filtered = Some json
    /\ forall citing cited,
         In (citing, cited) (DOIMatcher.match_dois {["10.1000/a"]} json) <->
         exists kv ent,
           In kv [("10.1000/c", [[("key", VStr "r1"); ("DOI", VStr "10.1000/a")];
                                 [("key", VStr "r2")]])]
           /\ fst kv = citing /\ In ent (snd kv)
           /\ lookup "DOI" ent = Some (VStr cited) /\ cited ∈ ({["10.1000/a"]} : gset string).
Proof.
  apply filtered_dois_feed_the_matcher.
  intros kv ent v [<-|[]] [<-|[<-|[]]] H; simpl in H; inversion H; eauto.
Defined.

(** X14. A reference that is not a dictionary never contributes a DOI: it
    is passed over, or the filter stops with TypeError (a string or a list
    that contains "DOI", or a number, a boolean, or null). *)
Theorem referenced_dois_of_non_dict (entity : value) (rest : list value) :
  (forall d, entity <> VDict d) ->
  referenced_dois_of (entity :: rest) = raise TypeError
  \/ referenced_dois_of (entity :: rest) = referenced_dois_of rest.
Proof.
  intros Hnd. unfold referenced_dois_of.
  destruct entity as [| | |s|l|d]; cbn [for_each contains_str];
    try (left; reflexivity).
  - destruct (contains s "DOI"); rewrite ValidatorFacts.bind_ret_l; cbn [getitem].
    + left. reflexivity.
    + right. rewrite ValidatorFacts.bind_ret_l. reflexivity.
  - destruct (existsb _ l); rewrite ValidatorFacts.bind_ret_l; cbn [getitem].
    + left. reflexivity.
    + right. rewrite ValidatorFacts.bind_ret_l. reflexivity.
  - exfalso. apply (Hnd d). reflexivity.
Qed.

Lemma referenced_dois_of_non_dict_witness :
  referenced_dois_of [VStr "see DOI 10.1000/a"] = raise TypeError
  \/ referenced_dois_of [VStr "see DOI 10.1000/a"] = referenced_dois_of [].
Proof. apply referenced_dois_of_non_dict. intros d H. discriminate H. Defined.

(** ** The pass over the references *)

Module ReferenceBatchFacts.
Import Py Loops ReferenceProcessor ReferenceBatch.
Local Open Scope py_scope.

Lemma strings_inv l : forall strs,
  mapM (fun v => match v with VStr s => Some s | _ => None end) l = Some strs ->
  l = map VStr strs.
Proof.
  induction l as [|v l IH]; intros strs H; cbn in H.
  - inversion H. reflexivity.
  - destruct v; cbn in H; try discriminate.
    destruct (mapM _ l) as [k|] eqn:E; cbn in H; [|discriminate].
    inversion H; subst. rewrite (IH k eq_refl). reflexivity.
Qed.

Lemma parse_strings strs :
  comprehension parse_reference (map VStr strs)
  = ret (map (fun s => info_to_value (extract_reference_info s)) strs).
Proof.
  induction strs as [|s strs IH]; [reflexivity|].
  cbn [map comprehension parse_reference]. rewrite IH.
  rewrite !ValidatorFacts.bind_ret_l. reflexivity.
Qed.

Lemma process_entry_strings d :
  is_Some (reference_strings d) -> process_entry (VDict d) = ret (parsed_entry d).
Proof.
  intros [strs H]. unfold process_entry, parsed_entry, get, setitem.
  rewrite ValidatorFacts.bind_ret_l, H. unfold reference_strings in H.
  destruct (lookup "references" d) as [[| | | |l|]|]; try discriminate; cbn [default from_option Datatypes.id iter].
  - rewrite ValidatorFacts.bind_ret_l, (strings_inv l strs H), parse_strings.
    rewrite ValidatorFacts.bind_ret_l. reflexivity.
  - inversion H; subst. rewrite ValidatorFacts.bind_ret_l. reflexivity.
Qed.

Lemma lookup_dict_set k v d : lookup k (dict_set k v d) = Some v.
Proof.
  induction d as [|[k' v'] d IH]; simpl.
  - rewrite String.eqb_refl. reflexivity.
  - destruct (String.eqb k k') eqn:E; simpl; rewrite ?String.eqb_refl, ?E; auto.
Qed.

Lemma comprehension_ok_inv {A B} (f : A -> M B) l : forall ys,
  outcome (comprehension f l) = Ok ys ->
  Forall2 (fun x y => outcome (f x) = Ok y) l ys.
Proof.
  induction l as [|x l IH]; intros ys H; simpl in H.
  - inversion H. constructor.
  - apply ValidatorFacts.bind_ok_inv in H as (y & Hy & H).
    apply ValidatorFacts.bind_ok_inv in H as (ys' & Hys & H).
    simpl in H. inversion H; subst. constructor; [exact Hy|apply IH; exact Hys].
Qed.

Lemma comprehension_raises {A B} (f : A -> M B) e l :
  (forall x, In x l -> f x = raise e \/ exists y, f x = ret y) ->
  (exists x, In x l /\ f x = raise e) ->
  comprehension f l = raise e.
Proof.
  induction l as [|x l IH]; intros Hall (x0 & Hin & Hx0); [destruct Hin|].
  simpl. destruct (Hall x (or_introl eq_refl)) as [Hx|[y Hx]]; rewrite Hx.
  - reflexivity.
  - rewrite ValidatorFacts.bind_ret_l.
    destruct Hin as [->|Hin]; [rewrite Hx in Hx0; discriminate|].
    rewrite IH; [reflexivity| |eauto].
    intros x' Hx'. apply Hall. right. exact Hx'.
Qed.

Lemma process_entry_passed e e' :
  outcome (process_entry e) = Ok e' -> passed e'.
Proof.
  unfold process_entry. intros H.
  apply ValidatorFacts.bind_ok_inv in H as (refs & Hrefs & H).
  apply ValidatorFacts.bind_ok_inv in H as (its & Hits & H).
  apply ValidatorFacts.bind_ok_inv in H as (upd & Hupd & H).
  destruct e; simpl in Hrefs; try discriminate.
  simpl in H. inversion H; subst; clear H.
  exists (dict_set "references" (VList upd) d), upd.
  split; [reflexivity|]. split; [apply lookup_dict_set|].
  apply comprehension_ok_inv in Hupd. clear -Hupd.
  induction Hupd as [|r y l k Hr _ IH]; constructor; [|exact IH].
  destruct r; simpl in Hr; try discriminate. inversion Hr. eexists. reflexivity.
Qed.

Lemma process_entry_again e :
  passed e ->
  (process_entry e = raise TypeError
   /\ exists d r rs, e = VDict d /\ lookup "references" d = Some (VList (r :: rs)))
  \/ (exists y, process_entry e = ret y).
Proof.
  intros (d & upd & -> & Hl & Hupd). unfold process_entry, get.
  rewrite ValidatorFacts.bind_ret_l, Hl. cbn [default from_option Datatypes.id iter].
  rewrite ValidatorFacts.bind_ret_l.
  destruct upd as [|r rs].
  - right. cbn [comprehension]. rewrite ValidatorFacts.bind_ret_l. eexists. reflexivity.
  - left. split; [|eauto]. inversion Hupd as [|? ? [rd ->] _]; subst. reflexivity.
Qed.

End ReferenceBatchFacts.

Import ReferenceBatch.

(** X15. On a file whose entries list their references as strings (or have
    no "references" key), the pass ends normally and prints nothing; it
    keeps the keys and their order and every other key of an entry, and
    puts under "references" the parsed form of each reference, one for one
    and in order (the empty list for an entry without the key). *)
Theorem process_references_of_strings (entries : list (string * list (string * value))) :
  (forall kv, In kv entries -> is_Some (reference_strings (snd kv))) ->
  process_references (VDict (map (fun kv => (fst kv, VDict (snd kv))) entries))
  = ret (VDict (map (fun kv => (fst kv, parsed_entry (snd kv))) entries)).
Proof.
  intros H. unfold process_references, items. rewrite ValidatorFacts.bind_ret_l.
  assert (Hc : comprehension
                 (fun kv => bind (process_entry (snd kv)) (fun entry => ret (fst kv, entry)))
                 (map (fun kv => (fst kv, VDict (snd kv))) entries)
               = ret (map (fun kv => (fst kv, parsed_entry (snd kv))) entries)).
  { induction entries as [|kv entries IH]; [reflexivity|].
    cbn [map comprehension fst snd].
    rewrite ReferenceBatchFacts.process_entry_strings by (apply H; left; reflexivity).
    rewrite IH by (intros kv' Hin; apply H; right; exact Hin).
    rewrite !ValidatorFacts.bind_ret_l. reflexivity. }
  rewrite Hc, ValidatorFacts.bind_ret_l. reflexivity.
Qed.

Lemma process_references_of_strings_witness :
  process_references
    (VDict (map (fun kv => (fst kv, VDict (snd kv)))
              [("10.1000/c", [("title", VStr "T");
                              ("references", VList [VStr "Doe J (2019) 10.1000/xyz123"])])]))
  = ret (VDict (map (fun kv => (fst kv, parsed_entry (snd kv)))
              [("10.1000/c", [("title", VStr "T");
                              ("references", VList [VStr "Doe J (2019) 10.1000/xyz123"])])])).
Proof.
  apply process_references_of_strings.
  intros kv [<-|[]]. eexists. reflexivity.
Defined.

(** X16. The pass cannot be run on its own output: if a first pass ended
    normally and left an entry with at least one reference, a second pass
    over the result stops with TypeError, the parsed references being
    dictionaries and not strings. *)
Theorem process_references_not_rerunnable (data data' : Py.value) :
  Py.outcome (process_references data) = Py.Ok data' ->
  (exists es k d r rs,
     data' = Py.VDict es /\ In (k, Py.VDict d) es
     /\ Py.lookup "references" d = Some (Py.VList (r :: rs))) ->
  process_references data' = Py.raise Py.TypeError.
Proof.
  intros H (es & k & d & r & rs & -> & Hin & Hl).
  unfold process_references in H.
  apply ValidatorFacts.bind_ok_inv in H as (es0 & Hes0 & H).
  apply ValidatorFacts.bind_ok_inv in H as (upd & Hupd & H).
  simpl in H. inversion H; subst upd; clear H.
  apply ReferenceBatchFacts.comprehension_ok_inv in Hupd.
  assert (Hpassed : forall kv, In kv es -> passed (snd kv)).
  { clear -Hupd. induction Hupd as [|x y l l' Hxy _ IH]; intros kv Hkv; [destruct Hkv|].
    destruct Hkv as [<-|Hkv]; [|apply IH; exact Hkv].
    apply ValidatorFacts.bind_ok_inv in Hxy as (e' & He' & Hxy).
    simpl in Hxy. inversion Hxy; subst. simpl.
    apply (ReferenceBatchFacts.process_entry_passed _ _ He'). }
  unfold process_references, Py.items. rewrite ValidatorFacts.bind_ret_l.
  rewrite (ReferenceBatchFacts.comprehension_raises _ Py.TypeError); [reflexivity| |].
  - intros kv Hkv.
    destruct (ReferenceBatchFacts.process_entry_again _ (Hpassed kv Hkv)) as [[He _]|[y He]];
      rewrite He.
    + left. reflexivity.
    + right. rewrite ValidatorFacts.bind_ret_l. eexists. reflexivity.
  - exists (k, Py.VDict d). split; [exact Hin|]. cbn [snd].
    destruct (ReferenceBatchFacts.process_entry_again _ (Hpassed _ Hin)) as [[He _]|[y He]];
      cbn [snd] in He.
    + rewrite He. reflexivity.
    + exfalso. unfold process_entry, Py.get in He.
      rewrite ValidatorFacts.bind_ret_l, Hl in He.
      cbn [default from_option Datatypes.id Py.iter] in He.
      rewrite ValidatorFacts.bind_ret_l in He.
      destruct (Hpassed _ Hin) as (d0 & upd & Hd0 & Hl0 & Hupd0).
      inversion Hd0; subst d0. cbn [snd] in Hl0. rewrite Hl in Hl0.
      inversion Hl0; subst upd. inversion Hupd0 as [|? ? [rd ->] _]; subst.
      discriminate He.
Qed.

Lemma process_references_not_rerunnable_witness :
  process_references
    (Py.VDict [("10.1000/c",
                Py.VDict [("references",
                           Py.VList [Py.VDict [("doi", Py.VStr "10.1000/xyz123")]])])])
  = Py.raise Py.TypeError.
Proof.
  apply (process_references_not_rerunnable
           (Py.VDict [("10.1000/c",
                       Py.VDict [("references", Py.VList [Py.VStr "Doe 10.1000/xyz123"])])])).
  - vm_compute. reflexivity.
  - eexists _, _, _, _, _. split; [reflexivity|]. split; [left; reflexivity|reflexivity].
Defined.

(** ** The SPARQL loops and the validator's loop *)

Module BatchFacts.
Import Py Loops CrossRefProcessor SPARQLCitationExtractor DOIValidator DOIValidatorBatch.
Local Open Scope py_scope.

Lemma collect_skip (query : string -> res value -> M value) key j net v :
  outcome (query j net) = Ok v -> truthy v = false ->
  forall a b,
    outcome (collect query key (a ++ (j, net) :: b)) = outcome (collect query key (a ++ b)).
Proof.
  intros Hq Hv a b. unfold collect. rewrite !FetchFacts.for_each_app.
  apply GathererFacts.outcome_bind_ext. intros st.
  cbn [for_each fst snd]. rewrite FetchFacts.bind_assoc.
  rewrite (FetchFacts.outcome_bind_ok _ _ _ Hq), Hv, ValidatorFacts.bind_ret_l.
  reflexivity.
Qed.

Lemma query_sparql_cited_failure url e :
  query_sparql_cited url (Raise e) = ([ErrorLine url e], Ok VNone).
Proof. reflexivity. Qed.

Lemma catch_all_returns {A} (body : M A) (handler : exn -> M A) :
  (forall e, exists a, outcome (handler e) = Ok a) ->
  exists a, outcome (try_except body is_exception handler) = Ok a.
Proof.
  intros Hh. destruct body as [out [a|e]]; simpl; [eauto|].
  destruct (Hh e) as [a Ha]. exists a. destruct (handler e). exact Ha.
Qed.

Lemma get_opencitations_metadata_request_error doi net e :
  request_error net = Some e ->
  get_opencitations_metadata doi net = ([ErrorLine doi e], Ok VNone).
Proof.
  destruct net as [kind|status body]; simpl.
  - intros H. inversion H; subst. reflexivity.
  - unfold get_opencitations_metadata, raise_for_status. simpl.
    destruct ((400 <=? status)%Z && (status <? 600)%Z); [|discriminate].
    intros H. inversion H; subst. reflexivity.
Qed.

Lemma get_crossref_metadata_request_error doi net e :
  request_error net = Some e ->
  get_crossref_metadata doi net = ([ErrorLine doi e], Ok VNone).
Proof.
  destruct net as [kind|status body]; simpl.
  - intros H. inversion H; subst. reflexivity.
  - unfold get_crossref_metadata, raise_for_status. simpl.
    destruct ((400 <=? status)%Z && (status <? 600)%Z); [|discriminate].
    intros H. inversion H; subst. reflexivity.
Qed.

Lemma get_opencitations_metadata_returns doi net :
  exists v, outcome (get_opencitations_metadata doi net) = Ok v.
Proof. apply catch_all_returns. intros e. exists VNone. reflexivity. Qed.

Lemma get_crossref_metadata_returns doi net :
  exists v, outcome (get_crossref_metadata doi net) = Ok v.
Proof. apply catch_all_returns. intros e. exists VNone. reflexivity. Qed.

Lemma validate_doi_keeps_doi doi oc cr v :
  outcome (validate_doi doi oc cr) = Ok v -> v_doi v = doi.
Proof.
  unfold validate_doi. intros H.
  repeat match type of H with
         | outcome (bind _ _) = Ok _ =>
             let a := fresh "a" in
             let Ha := fresh "Ha" in
             apply ValidatorFacts.bind_ok_inv in H as (a & Ha & H)
         end.
  inversion H; subst. reflexivity.
Qed.

End BatchFacts.

Import Py Loops CrossRefProcessor SPARQLCitationExtractor DOIValidator DOIValidatorBatch.

(** X17. A journal whose query fails, or returns nothing (no bindings),
    adds no row and does not stop the loop: the rows collected are those
    collected without that journal, for the citing and for the cited
    direction alike. *)
Theorem extract_data_skips_failed_queries (j : string) (a b : list (string * res value)) :
  (forall e,
     outcome (extract_citing_data (a ++ (j, Raise e) :: b))
     = outcome (extract_citing_data (a ++ b))
     /\ outcome (extract_cited_data (a ++ (j, Raise e) :: b))
        = outcome (extract_cited_data (a ++ b)))
  /\ (forall net v,
        outcome (query_sparql_citing j net) = Ok v -> truthy v = false ->
        outcome (extract_citing_data (a ++ (j, net) :: b))
        = outcome (extract_citing_data (a ++ b))
        /\ outcome (extract_cited_data (a ++ (j, net) :: b))
           = outcome (extract_cited_data (a ++ b))).
Proof.
  split.
  - intros e. split;
      apply (BatchFacts.collect_skip _ _ j (Raise e) VNone); reflexivity.
  - intros net v Hq Hv. split;
      apply (BatchFacts.collect_skip _ _ j net v); auto.
Qed.

Lemma extract_data_skips_failed_queries_witness :
  outcome (extract_citing_data
             ([] ++ ("https://example.org/j1",
                     Ok (VDict [("results", VDict [("bindings", VList [])])])) :: []))
  = outcome (extract_citing_data ([] ++ [])).
Proof.
  apply (proj1 (proj2 (extract_data_skips_failed_queries "https://example.org/j1" [] [])
                  (Ok (VDict [("results", VDict [("bindings", VList [])])]))
                  (VList []) eq_refl eq_refl)).
Defined.

(** X18. Every row the SPARQL loops collect is a row of one of the
    journals of the input column. *)
Theorem extract_data_rows_of_input (journals : list (string * res value))
    (rows : list found) :
  (outcome (extract_citing_data journals) = Ok rows
   \/ outcome (extract_cited_data journals) = Ok rows) ->
  forall row, In row rows -> In (f_journal row) (map fst journals).
Proof.
  assert (Hc : forall query key,
            outcome (collect query key journals) = Ok rows ->
            forall row, In row rows -> In (f_journal row) (map fst journals)).
  { intros query key. unfold collect.
    apply (GathererFacts.for_each_prefix_inv _
      (fun pre (st : list found) =>
         forall row, In row st -> In (f_journal row) (map fst pre))).
    - intros row [].
    - clear. intros pre item st st' Hst Hbody row Hrow.
      rewrite map_app, in_app_iff.
      apply ValidatorFacts.bind_ok_inv in Hbody as (r & _ & Hbody).
      destruct (truthy r).
      + apply ValidatorFacts.bind_ok_inv in Hbody as (results & _ & Hbody).
        revert Hbody row Hrow.
        apply (GathererFacts.for_each_prefix_inv _
          (fun _ (acc : list found) =>
             forall row, In row acc ->
               In (f_journal row) (map fst pre) \/ In (f_journal row) (map fst [item]))).
        * intros row0 H0. left. apply Hst. exact H0.
        * clear. intros _ result acc acc' Hacc Hstep row Hrow.
          repeat match type of Hstep with
                 | outcome (bind _ _) = Ok _ =>
                     let a := fresh "a" in
                     let Ha := fresh "Ha" in
                     apply ValidatorFacts.bind_ok_inv in Hstep as (a & Ha & Hstep)
                 end.
          simpl in Hstep. inversion Hstep; subst.
          apply in_app_iff in Hrow as [Hrow|[<-|[]]]; [apply Hacc; exact Hrow|].
          right. left. reflexivity.
      + simpl in Hbody. inversion Hbody; subst. left. apply Hst. exact Hrow. }
  intros [H|H]; [apply (Hc _ _ H)|apply (Hc _ _ H)].
Qed.

Lemma extract_data_rows_of_input_witness :
  In (f_journal (Found "https://example.org/j1" (VStr "c") (VStr "")))
     (map fst [("https://example.org/j1",
                Ok (VDict [("results",
                            VDict [("bindings",
                                    VList [VDict [("citation",
                                                   VDict [("value", VStr "c")])]])])]))]).
Proof.
  apply (extract_data_rows_of_input _ [Found "https://example.org/j1" (VStr "c") (VStr "")]).
  - left. vm_compute. reflexivity.
  - left. reflexivity.
Defined.

(** X19. The two metadata fetchers of the validator never raise: whatever
    the network answers they return a value, and after a failed request (no
    response, or a status from 400 to 599) they print one line and return
    None. *)
Theorem metadata_fetchers_never_raise (doi : string) (net : http) :
  (exists v, outcome (get_opencitations_metadata doi net) = Ok v)
  /\ (exists v, outcome (get_crossref_metadata doi net) = Ok v)
  /\ (forall e, request_error net = Some e ->
        get_opencitations_metadata doi net = ([ErrorLine doi e], Ok VNone)
        /\ get_crossref_metadata doi net = ([ErrorLine doi e], Ok VNone)).
Proof.
  split; [apply BatchFacts.get_opencitations_metadata_returns|].
  split; [apply BatchFacts.get_crossref_metadata_returns|].
  intros e He. split.
  - apply BatchFacts.get_opencitations_metadata_request_error. exact He.
  - apply BatchFacts.get_crossref_metadata_request_error. exact He.
Qed.

Lemma metadata_fetchers_never_raise_witness :
  get_opencitations_metadata "10.5055/jom" (NoResponse "Timeout")
  = ([ErrorLine "10.5055/jom" (RequestException "Timeout")], Ok VNone).
Proof.
  apply (proj2 (proj2 (metadata_fetchers_never_raise "10.5055/jom" (NoResponse "Timeout")))
           (RequestException "Timeout") eq_refl).
Defined.

(** X20. What the fetchers read from a response that is not an error: the
    OpenCitations fetcher returns the first element of a list and None for
    an empty list or an empty object, and turns a non-empty object into a
    printed KeyError and None; the Crossref fetcher returns the value of
    "message" of an object and None for an object without that key. *)
Theorem metadata_fetchers_payload (doi : string) (status : Z) :
  request_error (Response status VNone) = None ->
  (forall x l, get_opencitations_metadata doi (Response status (VList (x :: l))) = ret x)
  /\ get_opencitations_metadata doi (Response status (VList [])) = ret VNone
  /\ get_opencitations_metadata doi (Response status (VDict [])) = ret VNone
  /\ (forall kv d,
        get_opencitations_metadata doi (Response status (VDict (kv :: d)))
        = ([ErrorLine doi KeyError], Ok VNone))
  /\ (forall d m, lookup "message" d = Some m ->
        get_crossref_metadata doi (Response status (VDict d)) = ret m)
  /\ (forall d, lookup "message" d = None ->
        get_crossref_metadata doi (Response status (VDict d)) = ret VNone).
Proof.
  simpl. intros Hst.
  destruct ((400 <=? status)%Z && (status <? 600)%Z) eqn:E; [discriminate|]. clear Hst.
  unfold get_opencitations_metadata, get_crossref_metadata, raise_for_status.
  split; [|split; [|split; [|split; [|split]]]].
  1-4: intros; simpl; rewrite E; reflexivity.
  - intros d m Hm. cbn [requests_get]. rewrite ValidatorFacts.bind_ret_l.
    cbn [fst snd]. rewrite E, ValidatorFacts.bind_ret_l. unfold json. cbn [snd].
    rewrite ValidatorFacts.bind_ret_l. unfold contains_str.
    rewrite Hm, ValidatorFacts.bind_ret_l. unfold getitem. rewrite Hm. reflexivity.
  - intros d Hm. cbn [requests_get]. rewrite ValidatorFacts.bind_ret_l.
    cbn [fst snd]. rewrite E, ValidatorFacts.bind_ret_l. unfold json. cbn [snd].
    rewrite ValidatorFacts.bind_ret_l. unfold contains_str.
    rewrite Hm, ValidatorFacts.bind_ret_l. reflexivity.
Qed.

Lemma metadata_fetchers_payload_witness :
  get_opencitations_metadata "10.5055/jom"
    (Response 200 (VList [VDict [("title", VStr "T")]]))
  = ret (VDict [("title", VStr "T")]).
Proof.
  apply (proj1 (metadata_fetchers_payload "10.5055/jom" 200 eq_refl)).
Defined.

(** X21. When the loop over the DOIs ends normally it has added exactly one
    result for each DOI, in the order of the list, after the results that
    were there. *)
Theorem validate_doi_list_one_result_each
    (items : list (string * (http * http))) (results results' : list result) :
  outcome (validate_doi_list items results) = Ok results' ->
  map result_doi results' = map result_doi results ++ map fst items.
Proof.
  unfold validate_doi_list. intros H.
  apply (GathererFacts.for_each_prefix_inv _
    (fun pre (st : list result) =>
       map result_doi st = map result_doi results ++ map fst pre)) in H.
  - exact H.
  - simpl. rewrite app_nil_r. reflexivity.
  - clear. intros pre [doi [n1 n2]] st st' Hst Hbody. cbn [fst snd] in Hbody.
    apply ValidatorFacts.bind_ok_inv in Hbody as (oc & _ & Hbody).
    apply ValidatorFacts.bind_ok_inv in Hbody as (cr & _ & Hbody).
    rewrite !map_app, app_assoc, <- Hst. simpl.
    destruct (truthy oc && truthy cr).
    + apply ValidatorFacts.bind_ok_inv in Hbody as (v & Hv & Hbody).
      simpl in Hbody. inversion Hbody; subst.
      rewrite map_app. simpl. rewrite (BatchFacts.validate_doi_keeps_doi _ _ _ _ Hv).
      reflexivity.
    + simpl in Hbody. inversion Hbody; subst. rewrite map_app. reflexivity.
Qed.

Lemma validate_doi_list_one_result_each_witness :
  map result_doi [RetrievalFailed "10.5055/jom"]
  = map result_doi [] ++ map fst [("10.5055/jom", (NoResponse "Timeout", NoResponse "Timeout"))].
Proof.
  apply (validate_doi_list_one_result_each
           [("10.5055/jom", (NoResponse "Timeout", NoResponse "Timeout"))] []).
  vm_compute. reflexivity.
Defined.

(** X22. A DOI for which either request fails gets the entry "data
    retrieval failed", and the loop goes on with the next DOI. *)
Theorem validate_doi_list_failed_retrieval
    (doi : string) (n1 n2 : http) (e : exn)
    (rest : list (string * (http * http))) (results : list result) :
  request_error n1 = Some e \/ request_error n2 = Some e ->
  outcome (validate_doi_list ((doi, (n1, n2)) :: rest) results)
  = outcome (validate_doi_list rest (results ++ [RetrievalFailed doi])).
Proof.
  intros Hfail. unfold validate_doi_list. cbn [for_each fst snd].
  rewrite !FetchFacts.bind_assoc.
  destruct (BatchFacts.get_opencitations_metadata_returns doi n1) as [oc Hoc].
  rewrite (FetchFacts.outcome_bind_ok _ _ _ Hoc), FetchFacts.bind_assoc.
  destruct (BatchFacts.get_crossref_metadata_returns doi n2) as [cr Hcr].
  rewrite (FetchFacts.outcome_bind_ok _ _ _ Hcr).
  assert (Hfalse : truthy oc && truthy cr = false).
  { destruct Hfail as [H|H].
    - rewrite (BatchFacts.get_opencitations_metadata_request_error doi n1 e H) in Hoc.
      inversion Hoc; subst. reflexivity.
    - rewrite (BatchFacts.get_crossref_metadata_request_error doi n2 e H) in Hcr.
      inversion Hcr; subst. apply andb_false_r. }
  rewrite Hfalse, ValidatorFacts.bind_ret_l. reflexivity.
Qed.

Lemma validate_doi_list_failed_retrieval_witness :
  outcome (validate_doi_list
             [("10.5055/jom", (Response 404 VNone, Response 200 (VDict [])))] [])
  = outcome (validate_doi_list [] ([] ++ [RetrievalFailed "10.5055/jom"])).
Proof.
  apply (validate_doi_list_failed_retrieval "10.5055/jom" (Response 404 VNone)
           (Response 200 (VDict [])) (RequestException "HTTPError") [] []).
  left. reflexivity.
Defined.

(** ** Lower case, the first occurrence of a word, rows per key *)

Module TextFacts.
Import PyStr.

Lemma lower_char_idem c : lower_char (lower_char c) = lower_char c.
Proof. destruct c as [[] [] [] [] [] [] [] []]; reflexivity. Qed.

Lemma lower_chars s : list_ascii_of_string (lower s) = map lower_char (list_ascii_of_string s).
Proof. unfold lower. apply list_ascii_of_string_of_list_ascii. Qed.

Lemma lower_idem s : lower (lower s) = lower s.
Proof.
  unfold lower at 1. rewrite lower_chars, map_map. unfold lower. f_equal.
  apply map_ext. intros c. apply lower_char_idem.
Qed.



End TextFacts.

Module MergeCountFacts.
Import SPARQLCitationExtractor.

Lemma insert_sorted_perm x l : insert_sorted x l ≡ₚ x :: l.
Proof.
  induction l as [|y l IH]; simpl; [reflexivity|].
  destruct (String.leb x y); [reflexivity|].
  rewrite IH. apply Permutation_swap.
Qed.

Lemma union_keys_nodup l r : base.NoDup (union_keys l r).
Proof.
  unfold union_keys.
  assert (H : forall ks, fold_right insert_sorted [] ks ≡ₚ ks).
  { induction ks as [|k ks IH]; simpl; [reflexivity|].
    rewrite insert_sorted_perm, IH. reflexivity. }
  rewrite H. apply NoDup_remove_dups.
Qed.

Lemma filter_flat_map {A B} (f : B -> bool) (g : A -> list B) l :
  List.filter f (flat_map g l) = flat_map (fun x => List.filter f (g x)) l.
Proof.
  induction l as [|x l IH]; simpl; [reflexivity|].
  rewrite List.filter_app, IH. reflexivity.
Qed.

Lemma filter_all {A} (f : A -> bool) l :
  (forall x, In x l -> f x = true) -> List.filter f l = l.
Proof.
  induction l as [|x l IH]; intros H; simpl; [reflexivity|].
  rewrite (H x (or_introl eq_refl)), IH; [reflexivity|].
  intros y Hy. apply H. right. exact Hy.
Qed.

Lemma filter_none {A} (f : A -> bool) l :
  (forall x, In x l -> f x = false) -> List.filter f l = [].
Proof.
  induction l as [|x l IH]; intros H; simpl; [reflexivity|].
  rewrite (H x (or_introl eq_refl)), IH; [reflexivity|].
  intros y Hy. apply H. right. exact Hy.
Qed.

Lemma block_journal k' citing_df cited_df row :
  In row (merge_key (rows_of k' citing_df) (rows_of k' cited_df)) -> m_journal row = k'.
Proof.
  intros H. apply MergeFacts.in_merge_key in H
    as [(l & r & Hl & _ & ->)|[(_ & l & Hl & ->)|(_ & r & Hr & ->)]]; simpl.
  - apply MergeFacts.in_rows_of in Hl as [_ Hl]. exact Hl.
  - apply MergeFacts.in_rows_of in Hl as [_ Hl]. exact Hl.
  - apply MergeFacts.in_rows_of in Hr as [_ Hr]. exact Hr.
Qed.

Lemma merge_key_length ls rs :
  List.length (merge_key ls rs)
  = match List.length ls, List.length rs with
    | 0, n => n
    | m, 0 => m
    | m, n => m * n
    end.
Proof.
  assert (H : forall (xs ys : list side_row),
            List.length (flat_map (fun l => map (both l) ys) xs)
            = List.length xs * List.length ys).
  { intros xs ys. induction xs as [|x xs IH]; simpl; [reflexivity|].
    rewrite length_app, length_map, IH. reflexivity. }
  unfold merge_key. destruct ls as [|l ls]; [apply length_map|].
  destruct rs as [|r rs]; [rewrite length_map; reflexivity|].
  rewrite H. reflexivity.
Qed.

End MergeCountFacts.

Import DOIValidator PdfReferences SPARQLCitationExtractor.

(** X23. The strings the validator reports are the lower-cased fields:
    putting any of them in lower case again changes nothing, so the three
    comparisons do not see the case of the letters. *)
Theorem validate_doi_reports_lower_case
    (doi : string) (opencitations_data crossref_data : Py.value) (v : validation) :
  Py.outcome (validate_doi doi opencitations_data crossref_data) = Py.Ok v ->
  PyStr.lower (opencitations_title v) = opencitations_title v
  /\ PyStr.lower (crossref_title v) = crossref_title v
  /\ PyStr.lower (opencitations_author v) = opencitations_author v
  /\ PyStr.lower (crossref_author v) = crossref_author v
  /\ PyStr.lower (opencitations_publisher v) = opencitations_publisher v
  /\ PyStr.lower (crossref_publisher v) = crossref_publisher v.
Proof.
  assert (Hlow : forall x s, Py.outcome (Py.lower x) = Py.Ok s -> PyStr.lower s = s).
  { intros x s H. destruct x; simpl in H; try discriminate.
    inversion H; subst. apply TextFacts.lower_idem. }
  unfold validate_doi. intros H.
  repeat match type of H with
         | Py.outcome (Py.bind _ _) = Py.Ok _ =>
             let a := fresh "a" in
             let Ha := fresh "Ha" in
             apply ValidatorFacts.bind_ok_inv in H as (a & Ha & H)
         end.
  inversion H; subst; clear H. simpl.
  repeat match goal with
         | H : Py.outcome (Py.lower _) = Py.Ok _ |- _ => apply Hlow in H
         end.
  repeat split; auto using TextFacts.lower_idem.
  match goal with
  | H : Py.outcome (if Py.truthy ?t then _ else _) = Py.Ok _ |- _ =>
      destruct (Py.truthy t)
  end.
  - match goal with
    | H : Py.outcome (Py.bind _ _) = Py.Ok _ |- _ =>
        apply ValidatorFacts.bind_ok_inv in H as (t1 & _ & H);
        apply ValidatorFacts.bind_ok_inv in H as (t2 & _ & H);
        apply Hlow in H; exact H
    end.
  - match goal with
    | H : Py.outcome (Py.ret _) = Py.Ok _ |- _ => inversion H; reflexivity
    end.
Qed.

Lemma validate_doi_reports_lower_case_witness :
  PyStr.lower "a title" = "a title".
Proof.
  assert (H : Py.outcome (validate_doi "10.5055/jom"
                (Py.VDict [("title", Py.VStr "A Title")])
                (Py.VDict [("title", Py.VList [Py.VStr "a TITLE"])]))
              = Py.Ok (Validation "10.5055/jom" "a title" "a title" true "" "" true
                         "" "" true true))
    by (vm_compute; reflexivity).
  exact (proj1 (validate_doi_reports_lower_case _ _ _ _ H)).
Defined.



(** X25. In the merged table a journal that has m citing rows and n cited
    rows has m times n rows (every citing row paired with every cited row);
    with rows on one side only it keeps exactly those rows. *)
Theorem merge_rows_per_key (citing_df cited_df : list side_row) (k : string) :
  List.length (List.filter (has_key k) (merge_citing_and_cited_data citing_df cited_df))
  = match List.length (rows_of k citing_df), List.length (rows_of k cited_df) with
    | 0, n => n
    | m, 0 => m
    | m, n => m * n
    end.
Proof.
  unfold merge_citing_and_cited_data. rewrite MergeCountFacts.filter_flat_map.
  set (block := fun k' => merge_key (rows_of k' citing_df) (rows_of k' cited_df)).
  assert (Hother : forall k', k' <> k -> List.filter (has_key k) (block k') = []).
  { intros k' Hne. apply MergeCountFacts.filter_none. intros row Hrow.
    apply MergeCountFacts.block_journal in Hrow. unfold has_key.
    apply bool_decide_eq_false. congruence. }
  assert (Hsame : List.filter (has_key k) (block k) = block k).
  { apply MergeCountFacts.filter_all. intros row Hrow.
    apply MergeCountFacts.block_journal in Hrow. unfold has_key.
    apply bool_decide_eq_true. exact Hrow. }
  assert (Hcount : forall keys, base.NoDup keys ->
            List.length (flat_map (fun k' => List.filter (has_key k) (block k')) keys)
            = if bool_decide (k ∈ keys) then List.length (block k) else 0).
  { induction 1 as [|k' keys Hni Hnd IH]; [reflexivity|].
    cbn [flat_map]. rewrite length_app, IH.
    destruct (decide (k' = k)) as [->|Hne].
    - rewrite Hsame, (bool_decide_eq_false_2 _ Hni).
      rewrite bool_decide_eq_true_2 by (left). lia.
    - rewrite (Hother k' Hne). simpl.
      destruct (bool_decide (k ∈ keys)) eqn:E.
      + apply bool_decide_eq_true in E.
        rewrite bool_decide_eq_true_2 by (right; exact E). reflexivity.
      + apply bool_decide_eq_false in E.
        rewrite bool_decide_eq_false_2; [reflexivity|].
        intros Hin. apply elem_of_cons in Hin as [->|Hin]; [congruence|exact (E Hin)]. }
  rewrite (Hcount _ (MergeCountFacts.union_keys_nodup _ _)).
  destruct (bool_decide (k ∈ _)) eqn:E.
  - apply MergeCountFacts.merge_key_length.
  - apply bool_decide_eq_false in E.
    assert (Hl : rows_of k citing_df = []).
    { apply MergeFacts.no_rows. intros row Hrow Hk. apply E.
      apply list_elem_of_In, MergeFacts.in_union_keys. left.
      rewrite <- Hk. apply in_map. exact Hrow. }
    assert (Hr : rows_of k cited_df = []).
    { apply MergeFacts.no_rows. intros row Hrow Hk. apply E.
      apply list_elem_of_In, MergeFacts.in_union_keys. right.
      rewrite <- Hk. apply in_map. exact Hrow. }
    rewrite Hl, Hr. reflexivity.
Qed.
